(** * Verification of the Indeed.de job scraper

    A shallow embedding of [src/src/utils.py], of the navigation,
    extraction and paging methods of [ManualIndeedScraper] in
    [src/src/manual_scraper.py] and of the configuration handling and
    the page loop of [src/src/main.py], with the properties the
    specification states about them and further properties of the code.

    Modelling conventions.
    - A Python [str] is a [string] of the Standard Library; [s +:+ t] is
      concatenation.  The characters are 8-bit, so the model covers the
      strings whose code points are below 256.
    - A Python [int] is a [Z]; an f-string prints it in decimal, with a
      leading minus sign when it is negative.
    - A [dict] with string keys is a [gmap string _].
    - The browser driver, the operator at the keyboard and the file system
      are explicit arguments: a lookup either returns or raises, and the
      exception that is raised is part of the result. *)

From Stdlib Require Import ZArith Strings.String Strings.Ascii.
From Stdlib Require Import Numbers.DecimalString.
From stdpp Require Import gmap strings list fin_maps.

Local Open Scope string_scope.

(** ** Strings *)

Module Str.

(** The characters of a string, in order. *)
Definition chars (s : string) : list ascii := list_ascii_of_string s.

(** [str.replace(old, new)] for one-character [old] and [new]. *)
Fixpoint replace (old new : ascii) (s : string) : string :=
  match s with
  | EmptyString => EmptyString
  | String c s' =>
      String (if Ascii.eqb c old then new else c) (replace old new s')
  end.

(** The text an f-string produces for an [int]. *)
Definition of_int (n : Z) : string := NilZero.string_of_int (Z.to_int n).

(** [prefix_of p s]: [s] starts with [p]. *)
Fixpoint prefix_of (p s : string) : bool :=
  match p, s with
  | EmptyString, _ => true
  | String a p', String b s' => Ascii.eqb a b && prefix_of p' s'
  | String _ _, EmptyString => false
  end.

(** [sub in s] of Python: [sub] occurs somewhere in [s]. *)
Fixpoint contains (sub s : string) : bool :=
  prefix_of sub s ||
  match s with
  | EmptyString => false
  | String _ s' => contains sub s'
  end.

(** [s.split(sep)] for a non-empty [sep]: the pieces between the
    occurrences of [sep], found from left to right without overlap.
    [skip] counts the characters of the separator still to be jumped over,
    [acc] is the piece being read. *)
Fixpoint split_from (sep : string) (skip : nat) (acc : string) (s : string)
  : list string :=
  match s with
  | EmptyString => [acc]
  | String c s' =>
      match skip with
      | S k => split_from sep k acc s'
      | O =>
          if prefix_of sep s
          then acc :: split_from sep (String.length sep - 1) EmptyString s'
          else split_from sep O (acc +:+ String c EmptyString) s'
      end
  end.

Definition split (sep s : string) : list string := split_from sep O EmptyString s.

(** Python's [str.isspace] on the characters of the model: the ASCII white
    space, the four separators 0x1c to 0x1f, the next-line character 0x85
    and the no-break space 0xa0. *)
Definition isspace (c : ascii) : bool :=
  let n := nat_of_ascii c in
  ((9 <=? n) && (n <=? 13) || (28 <=? n) && (n <=? 32)
   || (n =? 133) || (n =? 160))%nat.

Fixpoint lstrip (s : string) : string :=
  match s with
  | EmptyString => EmptyString
  | String c s' => if isspace c then lstrip s' else s
  end.

(** Drops trailing white space: a character is kept when something that is
    kept follows it, or when it is not white space itself. *)
Fixpoint rstrip (s : string) : string :=
  match s with
  | EmptyString => EmptyString
  | String c s' =>
      match rstrip s' with
      | EmptyString => if isspace c then EmptyString else String c EmptyString
      | r => String c r
      end
  end.

(** [s.strip()] *)
Definition strip (s : string) : string := rstrip (lstrip s).

(** The lower-case form of a character: the letters A to Z, and the
    capital letters 0xc0 to 0xde of Latin-1 but for the multiplication
    sign 0xd7, move up by 32. *)
Definition lower_char (c : ascii) : ascii :=
  let n := nat_of_ascii c in
  if ((65 <=? n) && (n <=? 90)
      || (192 <=? n) && (n <=? 222) && negb (n =? 215))%nat
  then ascii_of_nat (n + 32) else c.

(** [s.lower()] *)
Fixpoint lower (s : string) : string :=
  match s with
  | EmptyString => EmptyString
  | String c s' => String (lower_char c) (lower s')
  end.

End Str.

(** ** [utils.py] *)

(** [build_indeed_url(job_title, location, radius, start=0, limit=15)] *)
Definition build_indeed_url
    (job_title location : string) (radius start limit : Z) : string :=
  (* Format job title and location for URL *)
  let job_title := Str.replace " " "+" job_title in
  let location := Str.replace " " "+" location in
  (* Build URL *)
  let url :=
    "https://de.indeed.com/jobs?q=" +:+ job_title +:+ "&l=" +:+ location
      +:+ "&radius=" +:+ Str.of_int radius +:+ "&limit=" +:+ Str.of_int limit in
  (* Add pagination if needed *)
  if (0 <? start)%Z then url +:+ "&start=" +:+ Str.of_int start else url.

(** The defaults of the keyword arguments. *)
Definition default_start : Z := 0.
Definition default_limit : Z := 15.

(** ** Exceptions

    The exception classes the code can meet.  Each of them derives from
    [Exception], so an [except Exception] clause and a bare [except] catch
    them all. *)
Inductive exn : Type :=
  | NoSuchElementException
  | StaleElementReferenceException
  | WebDriverException
  | IndexError
  | TypeError
  | EOFError
  | FileExistsError
  | IsADirectoryError
  | ValueError.

Inductive result (A : Type) : Type :=
  | Ret (a : A)
  | Raise (e : exn).
Arguments Ret {A} a.
Arguments Raise {A} e.

(** A handler that names [NoSuchElementException] only. *)
Definition is_no_such_element (e : exn) : bool :=
  match e with NoSuchElementException => true | _ => false end.

(** A handler for [(NoSuchElementException, IndexError)]. *)
Definition is_no_such_element_or_index (e : exn) : bool :=
  match e with NoSuchElementException | IndexError => true | _ => false end.

(** ** The browser driver

    [find_element] on a card either finds an element, finds none
    ([NoSuchElementException]) or fails in the driver with another
    [WebDriverException].  Reading a property of an element that was found
    gives its value or fails because the element went stale. *)
Inductive lookup (A : Type) : Type :=
  | Found (a : A)
  | NoSuchElement
  | DriverError.
Arguments Found {A} a.
Arguments NoSuchElement {A}.
Arguments DriverError {A}.

Inductive read (A : Type) : Type :=
  | Got (a : A)
  | Stale.
Arguments Got {A} a.
Arguments Stale {A}.

Definition of_lookup {A} (l : lookup A) : result A :=
  match l with
  | Found a => Ret a
  | NoSuchElement => Raise NoSuchElementException
  | DriverError => Raise WebDriverException
  end.

Definition of_read {A} (r : read A) : result A :=
  match r with
  | Got a => Ret a
  | Stale => Raise StaleElementReferenceException
  end.

(** An element inside a job card: its [text] property and the value of
    [get_attribute("href")], which is [None] when the attribute is absent. *)
Record element : Type := Element {
  text : read string;
  href : read (option string)
}.

(** A job card answers [find_element(By.CSS_SELECTOR, selector)]. *)
Record card : Type := Card {
  find_element : string -> lookup element
}.

Inductive By : Type := ID | CLASS_NAME | CSS_SELECTOR | XPATH.

(** The driver: [get(url)], [find_elements(by, value)] on the page and
    [get_cookies()].  [cookies_file] is what unpickling
    [indeed_cookies.pkl] gives when the file exists, [add_cookie] and
    [write_cookies] tell whether adding a cookie and writing the file
    succeed. *)
Record driver : Type := Driver {
  get : string -> result unit;
  find_elements : By -> string -> result (list card);
  get_cookies : result (list string);
  add_cookie : string -> result unit;
  cookies_file : option (result (list string));
  write_cookies : list string -> result unit
}.

(** ** [_extract_job_data]

    The method fills the dictionary [job] field by field.  The state of
    the computation is that dictionary together with the selectors that
    were handed to [card.find_element] so far, oldest first. *)
Record xstate : Type := XState {
  job : gmap string string;
  queried : list string
}.

Definition X (A : Type) : Type := xstate -> result A * xstate.

Definition xret {A} (a : A) : X A := fun st => (Ret a, st).
Definition xraise {A} (e : exn) : X A := fun st => (Raise e, st).
Definition xbind {A B} (m : X A) (k : A -> X B) : X B :=
  fun st =>
    match m st with
    | (Ret a, st') => k a st'
    | (Raise e, st') => (Raise e, st')
    end.
Definition xlift {A} (r : result A) : X A := fun st => (r, st).

Declare Scope x_scope.
Delimit Scope x_scope with X.
Notation "'let*' x := m 'in' k" := (xbind m (fun x => k))
  (at level 10, x name, m at level 100, k at level 200) : x_scope.
Notation "m ;;; k" := (xbind m (fun _ => k))
  (at level 100, k at level 200, right associativity) : x_scope.

(** [card.find_element(By.CSS_SELECTOR, selector)] *)
Definition card_find (c : card) (selector : string) : X element :=
  fun st =>
    (of_lookup (find_element c selector),
     XState (job st) (queried st ++ [selector])).

(** [job[key] = value] *)
Definition set_item (key value : string) : X unit :=
  fun st => (Ret tt, XState (<[key := value]> (job st)) (queried st)).

(** [if key not in job: job[key] = value] *)
Definition set_if_missing (key value : string) : X unit :=
  fun st =>
    match job st !! key with
    | Some _ => (Ret tt, st)
    | None => set_item key value st
    end.

(** One of the six loops that read the text of the first element found:
<<
    for selector in selectors:
        try:
            elem = card.find_element(By.CSS_SELECTOR, selector)
            job[key] = elem.text.strip()
            break
        except NoSuchElementException:
            continue
>> *)
Fixpoint text_loop (c : card) (key : string) (selectors : list string) : X unit :=
  match selectors with
  | [] => xret tt
  | selector :: rest =>
      fun st =>
        match (let* elem := card_find c selector in
               let* t := xlift (of_read (text elem)) in
               set_item key (Str.strip t))%X st with
        | (Ret _, st') => (Ret tt, st')
        | (Raise e, st') =>
            if is_no_such_element e then text_loop c key rest st'
            else (Raise e, st')
        end
  end.

(** [url.split('jk=')[1].split('&')[0] if 'jk=' in url else "unknown"];
    an index out of range raises [IndexError]. *)
Definition job_id_of (url : string) : result string :=
  if Str.contains "jk=" url then
    match Str.split "jk=" url !! 1%nat with
    | None => Raise IndexError
    | Some tail =>
        match Str.split "&" tail !! 0%nat with
        | None => Raise IndexError
        | Some id => Ret id
        end
    end
  else Ret "unknown".

(** The loop for the link.  When the attribute is absent [job['url']] is
    [None] and the test ['jk=' in job['url']] raises [TypeError]; the
    dictionary is local to the method and dropped by the handler that
    returns [None], so the model raises without storing [None] first.
<<
    for selector in url_selectors:
        try:
            link_elem = card.find_element(By.CSS_SELECTOR, selector)
            job['url'] = link_elem.get_attribute("href")
            job['job_id'] = ... (see job_id_of)
            break
        except (NoSuchElementException, IndexError):
            continue
>> *)
Fixpoint url_loop (c : card) (selectors : list string) : X unit :=
  match selectors with
  | [] => xret tt
  | selector :: rest =>
      fun st =>
        match (let* link_elem := card_find c selector in
               let* h := xlift (of_read (href link_elem)) in
               match h with
               | None => xraise TypeError
               | Some url =>
                   set_item "url" url ;;;
                   let* id := xlift (job_id_of url) in
                   set_item "job_id" id
               end)%X st with
        | (Ret _, st') => (Ret tt, st')
        | (Raise e, st') =>
            if is_no_such_element_or_index e then url_loop c rest st'
            else (Raise e, st')
        end
  end.

Definition title_selectors : list string :=
  ["h2.jobTitle span"; "h2.jobTitle a span"; "a.jcs-JobTitle span"; ".jobTitle"].
Definition company_selectors : list string :=
  ["span[data-testid='company-name']"; ".companyName";
   ".company_location .companyName"].
Definition location_selectors : list string :=
  ["div[data-testid='text-location']"; ".companyLocation";
   ".company_location .companyLocation"].
Definition salary_selectors : list string :=
  ["div[data-testid='attribute_snippet_testid']"; ".salary-snippet";
   ".salaryOnly"].
Definition url_selectors : list string :=
  ["h2.jobTitle a"; "a.jcs-JobTitle"; ".jobTitle a"].
Definition snippet_selectors : list string :=
  ["div.job-snippet"; ".job-snippet"; ".job-snippet-container"].
Definition date_selectors : list string :=
  ["span.date"; ".date"; ".new"].

(** The body of the [try] block of [_extract_job_data]. *)
Definition extract_job_data_body (c : card) : X (gmap string string) :=
  (text_loop c "title" title_selectors ;;;
   set_if_missing "title" "Title not found" ;;;
   text_loop c "company" company_selectors ;;;
   set_if_missing "company" "Company not found" ;;;
   text_loop c "location" location_selectors ;;;
   set_if_missing "location" "Location not found" ;;;
   text_loop c "salary" salary_selectors ;;;
   set_if_missing "salary" "Not specified" ;;;
   url_loop c url_selectors ;;;
   (fun st =>
      match job st !! "url" with
      | Some _ => (Ret tt, st)
      | None =>
          (set_item "url" "Not available" ;;; set_item "job_id" "unknown") st
      end) ;;;
   text_loop c "snippet" snippet_selectors ;;;
   set_if_missing "snippet" "Not available" ;;;
   text_loop c "date_posted" date_selectors ;;;
   set_if_missing "date_posted" "Not specified" ;;;
   (fun st => (Ret (job st), st)))%X.

(** [_extract_job_data(card)]: the dictionary, or [None] when anything in
    the body raised ([except Exception: return None]).  The second
    component is the list of selectors the call looked up, in order. *)
Definition _extract_job_data (c : card)
  : result (option (gmap string string)) * list string :=
  match extract_job_data_body c (XState ∅ []) with
  | (Ret j, st) => (Ret (Some j), queried st)
  | (Raise _, st) => (Ret None, queried st)
  end.

(** ** [extract_job_listings] *)

Definition card_selectors : list string :=
  ["div[data-testid='jobCard']"; ".jobsearch-ResultsList > div";
   "#mosaic-provider-jobcards .job_seen_beacon"].

(** A list is truthy when it is not empty. *)
Definition truthy {A} (l : list A) : bool :=
  match l with [] => false | _ :: _ => true end.

(** The loop over the card selectors.  [job_cards] is the variable of the
    method: [None] at first, then the last list a lookup returned; a
    lookup that raises leaves it as it was (bare [except: continue]). *)
Fixpoint find_job_cards (d : driver) (selectors : list string)
    (job_cards : option (list card)) : option (list card) :=
  match selectors with
  | [] => job_cards
  | selector :: rest =>
      match find_elements d CSS_SELECTOR selector with
      | Ret found =>
          if truthy found then Some found
          else find_job_cards d rest (Some found)
      | Raise _ => find_job_cards d rest job_cards
      end
  end.

(** The loop over the cards: a dictionary that is returned and not empty
    is appended, [None] is skipped, and so is a card whose extraction
    raises ([except Exception: continue]). *)
Fixpoint collect_jobs (cards : list card) (jobs : list (gmap string string))
  : list (gmap string string) :=
  match cards with
  | [] => jobs
  | c :: rest =>
      match fst (_extract_job_data c) with
      | Ret (Some job_data) =>
          if bool_decide (job_data = ∅) then collect_jobs rest jobs
          else collect_jobs rest (jobs ++ [job_data])
      | Ret None => collect_jobs rest jobs
      | Raise _ => collect_jobs rest jobs
      end
  end.

(** [try: body except Exception: handler] *)
Definition try_except {A} (body : result A) (handler : exn -> result A)
  : result A :=
  match body with
  | Ret a => Ret a
  | Raise e => handler e
  end.

Definition extract_job_listings (d : driver)
  : result (list (gmap string string)) :=
  try_except
    (match find_job_cards d card_selectors None with
     | None => Ret []
     | Some job_cards =>
         if truthy job_cards then Ret (collect_jobs job_cards [])
         else Ret []
     end)
    (fun _ => Ret []).

(** ** [manual_navigate] *)

(** What [input()] gives at one prompt: a line, or [EOFError] when the
    input stream is closed. *)
Inductive input_event : Type :=
  | Line (s : string)
  | Closed.

(** How a call ends: it returns, it raises, or it is still waiting at the
    prompt when the scripted input is used up. *)
Inductive outcome (A : Type) : Type :=
  | Returns (a : A)
  | Raises (e : exn)
  | AwaitsInput.
Arguments Returns {A} a.
Arguments Raises {A} e.
Arguments AwaitsInput {A}.

(** [load_cookies]: [False] without a cookie file or when anything raises,
    [True] otherwise; a cookie that cannot be added is logged and skipped. *)
Definition load_cookies (d : driver) : bool :=
  match cookies_file d with
  | None => false
  | Some loaded =>
      match loaded with
      | Raise _ => false
      | Ret cookies =>
          match get d "https://de.indeed.com" with
          | Raise _ => false
          | Ret _ =>
              let _ := map (add_cookie d) cookies in
              true
          end
      end
  end.

(** [save_cookies]: [True] when the cookies were read and written. *)
Definition save_cookies (d : driver) : bool :=
  match get_cookies d with
  | Raise _ => false
  | Ret cookies =>
      match write_cookies d cookies with
      | Raise _ => false
      | Ret _ => true
      end
  end.

(** First loop of the [try] block: is a job card visible? *)
Fixpoint job_cards_found (d : driver) (selectors : list string) : bool :=
  match selectors with
  | [] => false
  | selector :: rest =>
      match find_elements d CSS_SELECTOR selector with
      | Ret found => if truthy found then true else job_cards_found d rest
      | Raise _ => job_cards_found d rest
      end
  end.

Definition cloudflare_elements : list (By * string) :=
  [(ID, "challenge-running");
   (ID, "cf-challenge-running");
   (CLASS_NAME, "cf-browser-verification");
   (CLASS_NAME, "cf-im-under-attack");
   (CSS_SELECTOR, "div.cf-wrapper");
   (XPATH, "//*[contains(text(), 'Checking your browser')]");
   (XPATH, "//*[contains(text(), 'Please wait')]");
   (XPATH, "//*[contains(text(), 'DDoS protection')]");
   (ID, "captcha");
   (CLASS_NAME, "g-recaptcha");
   (XPATH, "//*[contains(text(), 'CAPTCHA')]");
   (XPATH, "//*[contains(text(), 'captcha')]");
   (XPATH, "//*[contains(text(), 'I am human')]")].

(** Second loop: a lookup that raises is not caught here. *)
Fixpoint challenge_found (d : driver) (elements : list (By * string))
  : result bool :=
  match elements with
  | [] => Ret false
  | (element_type, element_value) :: rest =>
      match find_elements d element_type element_value with
      | Ret found => if truthy found then Ret true else challenge_found d rest
      | Raise e => Raise e
      end
  end.

(** The cookie dialog: a lookup that raises counts as no dialog. *)
Definition cookie_dialog_found (d : driver) : bool :=
  match find_elements d CSS_SELECTOR
          ".overlay, .modal, .dialog, .popup, .consent, .cookie" with
  | Ret overlays => truthy overlays
  | Raise _ => false
  end.

(** [input(...).strip().lower()] *)
Definition command_of (s : string) : string := Str.lower (Str.strip s).

(** The prompt loop, with the input that is left when it ends:
<<
    while True:
        user_input = input("Command (done/save/quit): ").strip().lower()
        if user_input == 'done': break
        elif user_input == 'save': self.save_cookies(); break
        elif user_input == 'quit': return False
    return True
>> *)
Fixpoint prompt_loop (d : driver) (stdin : list input_event)
  : outcome bool * list input_event :=
  match stdin with
  | [] => (AwaitsInput, [])
  | Closed :: rest => (Raises EOFError, rest)
  | Line s :: rest =>
      let user_input := command_of s in
      if String.eqb user_input "done" then (Returns true, rest)
      else if String.eqb user_input "save" then
        let _ := save_cookies d in (Returns true, rest)
      else if String.eqb user_input "quit" then (Returns false, rest)
      else prompt_loop d rest
  end.

(** No manual intervention is needed: job cards are visible, no challenge
    and no cookie dialog was found, and no lookup outside a handler
    raised. *)
Definition automatic (d : driver) : bool :=
  match challenge_found d cloudflare_elements with
  | Ret challenge =>
      job_cards_found d card_selectors && negb challenge
        && negb (cookie_dialog_found d)
  | Raise _ => false
  end.

(** [manual_navigate(url)].  [driver.get(url)] is outside the [try]
    block, so its exception reaches the caller.  Inside, an exception
    (from the challenge lookups or from [input()]) leads to the fallback
    prompt of the handler, whose own exceptions reach the caller. *)
Definition manual_navigate (d : driver) (url : string)
    (stdin : list input_event) : outcome bool :=
  let cookies_loaded := load_cookies d in
  match get d url with
  | Raise e => Raises e
  | Ret _ =>
      let found := job_cards_found d card_selectors in
      match challenge_found d cloudflare_elements with
      | Raise _ => fst (prompt_loop d stdin)
      | Ret challenge =>
          let dialog := cookie_dialog_found d in
          if found && negb challenge && negb dialog then Returns true
          else
            match prompt_loop d stdin with
            | (Raises _, rest) => fst (prompt_loop d rest)
            | (o, _) => o
            end
      end
  end.

(** ** [save_to_csv] and [save_to_json]

    The world the two functions act on: the file system, a map from paths
    to nodes, and the lines printed so far. *)
Inductive node : Type :=
  | Directory
  | File (content : string).

Record world : Type := World {
  files : gmap string node;
  stdout : list string
}.

Definition print (line : string) (w : world) : world :=
  World (files w) (stdout w ++ [line]).

(** [Path(dir) / filename]: an absolute [filename] replaces [dir]. *)
Definition path_join (dir filename : string) : string :=
  if Str.prefix_of "/" filename then filename else dir +:+ "/" +:+ filename.

(** [Path(dir).mkdir(exist_ok=True)] for a [dir] whose parent exists. *)
Definition mkdir_exist_ok (dir : string) (w : world) : result unit * world :=
  match files w !! dir with
  | Some Directory => (Ret tt, w)
  | Some (File _) => (Raise FileExistsError, w)
  | None => (Ret tt, World (<[dir := Directory]> (files w)) (stdout w))
  end.

Section Save.

(** What the libraries and the operating system decide: the text pandas
    and [json.dump] produce for the data, the time stamp of
    [datetime.now()], and whether a path can be opened for writing in a
    given file system. *)
Variable csv_text : list (gmap string string) -> string.
Variable json_text : list (gmap string string) -> string.
Variable timestamp : string.
Variable open_error : gmap string node -> string -> option exn.

(** Opening [path] for writing and writing [content]. *)
Definition write_file (path content : string) (w : world)
  : result unit * world :=
  match open_error (files w) path with
  | Some e => (Raise e, w)
  | None => (Ret tt, World (<[path := File content]> (files w)) (stdout w))
  end.

(** The part the two functions share once the data is known not to be
    empty: default file name, output directory, write, message. *)
Definition save_with (content extension : string)
    (filename : option string) (w : world)
  : result (option string) * world :=
  let filename :=
    match filename with
    | None => "indeed_jobs_" +:+ timestamp +:+ extension
    | Some f => f
    end in
  match mkdir_exist_ok "output" w with
  | (Raise e, w1) => (Raise e, w1)
  | (Ret _, w1) =>
      let output_path := path_join "output" filename in
      match write_file output_path content w1 with
      | (Raise e, w2) => (Raise e, w2)
      | (Ret _, w2) =>
          (Ret (Some output_path), print ("Data saved to " +:+ output_path) w2)
      end
  end.

(** [save_to_csv(data, filename=None)] *)
Definition save_to_csv (data : list (gmap string string))
    (filename : option string) (w : world)
  : result (option string) * world :=
  if negb (truthy data) then
    (Ret None, print "No data to save to CSV." w)
  else save_with (csv_text data) ".csv" filename w.

(** [save_to_json(data, filename=None)] *)
Definition save_to_json (data : list (gmap string string))
    (filename : option string) (w : world)
  : result (option string) * world :=
  if negb (truthy data) then
    (Ret None, print "No data to save to JSON." w)
  else save_with (json_text data) ".json" filename w.

End Save.

(** ** [get_config]

    A computation that may raise is sequenced with the monad of [result]:
    the first exception ends it. *)
#[global] Instance result_ret : MRet result := fun _ a => Ret a.
#[global] Instance result_bind : MBind result :=
  fun _ _ k r =>
    match r with
    | Ret a => k a
    | Raise e => Raise e
    end.
#[global] Instance result_fmap : FMap result :=
  fun _ _ f r =>
    match r with
    | Ret a => Ret (f a)
    | Raise e => Raise e
    end.

(** [os.getenv(key, default)] on the environment [env]. *)
Definition getenv (env : gmap string string) (key default : string) : string :=
  match env !! key with
  | Some value => value
  | None => default
  end.

(** The inner function of [get_config], on a [str]:
<<
    if value and isinstance(value, str):
        if '#' in value:
            value = value.split('#')[0].strip()
    return value
>> *)
Definition clean_value (value : string) : result string :=
  if negb (String.eqb value "") then
    if Str.contains "#" value then
      match Str.split "#" value !! 0%nat with
      | Some piece => Ret (Str.strip piece)
      | None => Raise IndexError
      end
    else Ret value
  else Ret value.

(** The dictionary [get_config] returns, key by key. *)
Module Config.

Record t : Type := Make {
  job_title : string;
  location : string;
  radius : Z;
  results_per_page : Z;
  max_pages : Z;
  output_csv : bool;
  output_json : bool;
  headless : bool;
  timeout : Z
}.

End Config.

Section GetConfig.

(** What [int(text)] makes of a text: the number, or nothing when it
    raises [ValueError]. *)
Variable int : string -> option Z.

(** [int(clean_value(text))] *)
Definition number (text : string) : result Z :=
  value ← clean_value text;
  match int value with
  | Some n => Ret n
  | None => Raise ValueError
  end.

(** [clean_value(text).lower() == 'true'] *)
Definition flag (text : string) : result bool :=
  value ← clean_value text;
  Ret (String.eqb (Str.lower value) "true").

(** [get_config()]: the entries of the dictionary are evaluated in the
    order in which they are written. *)
Definition get_config (env : gmap string string) : result Config.t :=
  let job_title := getenv env "JOB_TITLE" "software engineer" in
  let location := getenv env "LOCATION" "Berlin" in
  radius ← number (getenv env "RADIUS" "25");
  results_per_page ← number (getenv env "RESULTS_PER_PAGE" "15");
  max_pages ← number (getenv env "MAX_PAGES" "5");
  output_csv ← flag (getenv env "OUTPUT_CSV" "True");
  output_json ← flag (getenv env "OUTPUT_JSON" "True");
  headless ← flag (getenv env "HEADLESS" "False");
  timeout ← number (getenv env "TIMEOUT" "10");
  Ret (Config.Make job_title location radius results_per_page max_pages
         output_csv output_json headless timeout).

End GetConfig.

(** ** Paging: [has_next_page], [_handle_cookie_consent], [go_to_next_page]

    A button on the page, with what happens when the driver scrolls to it
    ([execute_script("arguments[0].scrollIntoView(true);", button)]),
    when it is clicked ([button.click()]) and when the driver clicks it
    with a script ([execute_script("arguments[0].click();", button)]). *)
Record button : Type := Button {
  scroll_into_view : result unit;
  click : result unit;
  script_click : result unit
}.

(** What the browser answers during one call: [page] answers the lookups
    of job cards and overlays, [find_button] is
    [driver.find_element(By.CSS_SELECTOR, selector)] and [find_buttons]
    is [driver.find_elements(by, value)] for the cookie buttons. *)
Record browser : Type := Browser {
  page : driver;
  find_button : string -> lookup button;
  find_buttons : By -> string -> result (list button)
}.

Definition next_selectors : list string :=
  ["a[data-testid='pagination-page-next']"; "a.pn"; "a[aria-label='Next']";
   "a.np"].

(** The loop of [has_next_page]:
<<
    for selector in next_selectors:
        try:
            next_button = self.driver.find_element(By.CSS_SELECTOR, selector)
            return True
        except NoSuchElementException:
            continue
    return False
>> *)
Fixpoint next_page_loop (b : browser) (selectors : list string) : result bool :=
  match selectors with
  | [] => Ret false
  | selector :: rest =>
      match of_lookup (find_button b selector) with
      | Ret next_button => Ret true
      | Raise e =>
          if is_no_such_element e then next_page_loop b rest else Raise e
      end
  end.

(** [has_next_page()]: [except Exception: return False]. *)
Definition has_next_page (b : browser) : bool :=
  match next_page_loop b next_selectors with
  | Ret found => found
  | Raise _ => false
  end.

Definition cookie_buttons : list (By * string) :=
  [(ID, "onetrust-accept-btn-handler");
   (ID, "accept-cookie-notification");
   (CSS_SELECTOR, "button[data-testid='cookie-consent-accept']");
   (CSS_SELECTOR, ".accept-cookies-button");
   (CSS_SELECTOR, "#onetrust-accept-btn-handler");
   (CSS_SELECTOR, "button.onetrust-close-btn-handler");
   (CSS_SELECTOR, "button.cookie-consent-accept");
   (XPATH, "//button[contains(text(), 'Accept')]");
   (XPATH, "//button[contains(text(), 'Accept All')]");
   (XPATH, "//button[contains(text(), 'I Accept')]");
   (XPATH, "//button[contains(text(), 'Agree')]");
   (XPATH, "//button[contains(text(), 'OK')]");
   (XPATH, "//button[contains(text(), 'Got it')]")].

(** The loop over the buttons one locator found: [true] when the method
    returns [True] from inside it.
<<
    for button in cookie_buttons:
        try:
            self.driver.execute_script("arguments[0].scrollIntoView(true);", button)
            try:
                button.click()
            except:
                self.driver.execute_script("arguments[0].click();", button)
            return True
        except:
            continue
>> *)
Fixpoint click_first (buttons : list button) : bool :=
  match buttons with
  | [] => false
  | button :: rest =>
      match scroll_into_view button with
      | Raise _ => click_first rest
      | Ret _ =>
          match click button with
          | Ret _ => true
          | Raise _ =>
              match script_click button with
              | Ret _ => true
              | Raise _ => click_first rest
              end
          end
      end
  end.

(** The loop over the locators; a lookup that raises is skipped. *)
Fixpoint accept_cookies (b : browser) (locators : list (By * string)) : bool :=
  match locators with
  | [] => false
  | (button_type, button_value) :: rest =>
      match find_buttons b button_type button_value with
      | Raise _ => accept_cookies b rest
      | Ret found =>
          if click_first found then true else accept_cookies b rest
      end
  end.

(** [_handle_cookie_consent()]: [True] when a button was clicked; else
    [False] when an overlay is on the page and [True] when none is, or
    when the lookup raises. *)
Definition _handle_cookie_consent (b : browser) : bool :=
  if accept_cookies b cookie_buttons then true
  else
    match find_elements (page b) CSS_SELECTOR
            ".overlay, .modal, .dialog, .popup, .consent, .cookie" with
    | Ret overlays => if truthy overlays then false else true
    | Raise _ => true
    end.

(** The prompt of [go_to_next_page], asked once:
<<
    user_input = input("Command (done/quit): ").strip().lower()
    if user_input == 'done': return True
    else: return False
>> *)
Definition ask_done (stdin : list input_event)
  : outcome bool * list input_event :=
  match stdin with
  | [] => (AwaitsInput, [])
  | Closed :: rest => (Raises EOFError, rest)
  | Line s :: rest => (Returns (String.eqb (command_of s) "done"), rest)
  end.

(** The loop of [go_to_next_page] that looks for the button:
    [next_button] stays [None] when no selector finds one. *)
Fixpoint find_next_button (b : browser) (selectors : list string)
  : result (option button) :=
  match selectors with
  | [] => Ret None
  | selector :: rest =>
      match of_lookup (find_button b selector) with
      | Ret next_button => Ret (Some next_button)
      | Raise e =>
          if is_no_such_element e then find_next_button b rest else Raise e
      end
  end.

(** [try: next_button.click() except Exception: execute_script(...)] *)
Definition press (next_button : button) : result unit :=
  match click next_button with
  | Ret _ => Ret tt
  | Raise _ => script_click next_button
  end.

(** The [try] block of [go_to_next_page] up to its prompt: [Some r] when
    it returns [r] without asking, [None] when it goes on to ask. *)
Definition next_page_attempt (b : browser) : result (option bool) :=
  let cookie_handled := _handle_cookie_consent b in
  next_button ← find_next_button b next_selectors;
  match next_button with
  | None => Ret (Some false)
  | Some next_button =>
      _ ← scroll_into_view next_button;
      _ ← press next_button;
      let job_cards_found := job_cards_found (page b) card_selectors in
      if job_cards_found then Ret (Some true)
      else if negb job_cards_found || negb cookie_handled then Ret None
      else Ret (Some true)
  end.

(** [go_to_next_page()], with the input that is left.  An exception in
    the [try] block, that of its prompt included, leads to the prompt of
    the handler, whose own exception reaches the caller. *)
Definition go_to_next_page (b : browser) (stdin : list input_event)
  : outcome bool * list input_event :=
  match next_page_attempt b with
  | Ret (Some r) => (Returns r, stdin)
  | Ret None =>
      match ask_done stdin with
      | (Raises _, rest) => ask_done rest
      | answered => answered
      end
  | Raise _ => ask_done stdin
  end.

(** ** [main.py] *)

Module Main.

(** The namespace [parse_arguments()] returns: an option that was not
    given is [None], a switch that was not given is [False]. *)
Record args : Type := Args {
  job_title : option string;
  location : option string;
  radius : option Z;
  max_pages : option Z;
  output_csv : bool;
  output_json : bool;
  headless : bool
}.

(** The overriding of the configuration by the command line:
<<
    if args.job_title: config['job_title'] = args.job_title
    ...
    if args.output_json: config['output_json'] = True
>>
    A string counts when it is not empty, a number when it is not 0. *)
Definition given_text (o : option string) (configured : string) : string :=
  match o with
  | Some s => if negb (String.eqb s "") then s else configured
  | None => configured
  end.

Definition given_number (o : option Z) (configured : Z) : Z :=
  match o with
  | Some n => if negb (n =? 0)%Z then n else configured
  | None => configured
  end.

Definition override (a : args) (config : Config.t) : Config.t :=
  Config.Make
    (given_text (job_title a) (Config.job_title config))
    (given_text (location a) (Config.location config))
    (given_number (radius a) (Config.radius config))
    (Config.results_per_page config)
    (given_number (max_pages a) (Config.max_pages config))
    (if output_csv a then true else Config.output_csv config)
    (if output_json a then true else Config.output_json config)
    (Config.headless config)
    (Config.timeout config).

(** The URL [main] builds: [start] is left at its default. *)
Definition search_url (config : Config.t) : string :=
  build_indeed_url (Config.job_title config) (Config.location config)
    (Config.radius config) default_start (Config.results_per_page config).

(** What the browser answers in one round of the loop of [main]: to
    [extract_job_listings], to [has_next_page] and to [go_to_next_page]. *)
Record visit : Type := Visit {
  listing : driver;
  paging : browser;
  moving : browser
}.

(** The loop of [main], with [remaining] the rounds that are left
    before [current_page] reaches [max_pages]:
<<
    while current_page < config['max_pages']:
        jobs = scraper.extract_job_listings()
        if not jobs: break
        all_jobs.extend(jobs)
        if not scraper.has_next_page(): break
        if not scraper.go_to_next_page(): break
        current_page += 1
>> *)
Fixpoint page_loop (remaining : nat) (visits : nat -> visit)
    (current_page : nat) (all_jobs : list (gmap string string))
    (stdin : list input_event)
  : outcome (list (gmap string string)) * list input_event :=
  match remaining with
  | O => (Returns all_jobs, stdin)
  | S remaining =>
      match extract_job_listings (listing (visits current_page)) with
      | Raise e => (Raises e, stdin)
      | Ret jobs =>
          if negb (truthy jobs) then (Returns all_jobs, stdin)
          else
            let all_jobs := (all_jobs ++ jobs)%list in
            if negb (has_next_page (paging (visits current_page)))
            then (Returns all_jobs, stdin)
            else
              match go_to_next_page (moving (visits current_page)) stdin with
              | (Returns true, rest) =>
                  page_loop remaining visits (S current_page) all_jobs rest
              | (Returns false, rest) => (Returns all_jobs, rest)
              | (Raises e, rest) => (Raises e, rest)
              | (AwaitsInput, rest) => (AwaitsInput, rest)
              end
      end
  end.

(** The jobs [main] collects: [all_jobs] starts empty and
    [current_page] at 0. *)
Definition scrape_pages (max_pages : Z) (visits : nat -> visit)
    (stdin : list input_event)
  : outcome (list (gmap string string)) * list input_event :=
  page_loop (Z.to_nat max_pages) visits 0%nat [] stdin.


End Main.

(** ** The text of [build_indeed_url]

    What a call leaves untouched cannot be read off a function of Rocq,
    which has nothing to touch.  So [build_indeed_url] is given a second
    time, as the statements of [utils.py] in a small abstract syntax, and
    run by an interpreter of that syntax.  The state of the interpreter
    holds the local variables of the call and, outside the call, the
    global variables of the module and the lines that were printed; the
    syntax has statements that change each of them. *)
Module Py.

Inductive value : Type :=
  | VStr (s : string)
  | VInt (n : Z)
  | VBool (b : bool)
  | VNone.

(** The exceptions of the interpreter; [Unsupported] stands for an
    operation on values the interpreter does not cover. *)
Inductive error : Type :=
  | NameError
  | UnboundLocalError
  | TypeError
  | AttributeError
  | Unsupported.

Inductive res (A : Type) : Type :=
  | Ok (a : A)
  | Err (e : error).
Arguments Ok {A} a.
Arguments Err {A} e.

Definition bind {A B} (r : res A) (k : A -> res B) : res B :=
  match r with
  | Ok a => k a
  | Err e => Err e
  end.

(** A piece of an f-string: literal text, or a variable in braces. *)
Inductive piece : Type :=
  | Text (s : string)
  | Hole (x : string).

Inductive expr : Type :=
  | Name (x : string)
  | Int (n : Z)
  | Replace (e : expr) (old new : ascii)
  | FString (pieces : list piece)
  | Gt (e1 e2 : expr).

#[warnings="-register-all"]
Inductive stmt : Type :=
  | Assign (x : string) (e : expr)
  | AugAssign (x : string) (e : expr)
  | If (test : expr) (body : list stmt)
  | Return (e : expr)
  | Print (e : expr)
  | AssignGlobal (x : string) (e : expr).

(** The state outside a call. *)
Record machine : Type := Machine {
  globals : gmap string value;
  printed : list string
}.

(** The local variables of a call, the newest binding first. *)
Definition frame : Type := list (string * value).

Fixpoint lookup_local (x : string) (f : frame) : option value :=
  match f with
  | [] => None
  | (y, v) :: rest => if String.eqb x y then Some v else lookup_local x rest
  end.

(** The names a statement assigns: they are local to the function. *)
Fixpoint assigned (s : stmt) : list string :=
  match s with
  | Assign x _ => [x]
  | AugAssign x _ => [x]
  | If _ body => flat_map assigned body
  | Return _ => []
  | Print _ => []
  | AssignGlobal _ _ => []
  end.

(** The text of a value in an f-string and in [print]. *)
Definition format (v : value) : string :=
  match v with
  | VStr s => s
  | VInt n => Str.of_int n
  | VBool true => "True"
  | VBool false => "False"
  | VNone => "None"
  end.

Definition truth (v : value) : bool :=
  match v with
  | VStr s => negb (String.eqb s "")
  | VInt n => negb (n =? 0)%Z
  | VBool b => b
  | VNone => false
  end.

Section Run.

(** The names that are local to the function that runs. *)
Variable local_names : list string.

(** Reading a name: a local name is read from the frame, any other name
    from the globals of the module. *)
Definition load (x : string) (f : frame) (m : machine) : res value :=
  if existsb (String.eqb x) local_names then
    match lookup_local x f with
    | Some v => Ok v
    | None => Err UnboundLocalError
    end
  else
    match globals m !! x with
    | Some v => Ok v
    | None => Err NameError
    end.

Fixpoint fstring (pieces : list piece) (f : frame) (m : machine) : res string :=
  match pieces with
  | [] => Ok ""
  | Text s :: rest => bind (fstring rest f m) (fun r => Ok (s +:+ r))
  | Hole x :: rest =>
      bind (load x f m) (fun v =>
      bind (fstring rest f m) (fun r => Ok (format v +:+ r)))
  end.

Fixpoint eval (e : expr) (f : frame) (m : machine) : res value :=
  match e with
  | Name x => load x f m
  | Int n => Ok (VInt n)
  | Replace e old new =>
      bind (eval e f m) (fun v =>
      match v with
      | VStr s => Ok (VStr (Str.replace old new s))
      | _ => Err AttributeError
      end)
  | FString pieces => bind (fstring pieces f m) (fun s => Ok (VStr s))
  | Gt e1 e2 =>
      bind (eval e1 f m) (fun v1 =>
      bind (eval e2 f m) (fun v2 =>
      match v1, v2 with
      | VInt a, VInt b => Ok (VBool (b <? a)%Z)
      | VStr _, VInt _ => Err TypeError
      | VInt _, VStr _ => Err TypeError
      | _, _ => Err Unsupported
      end))
  end.

(** [x += e] on two strings and on two numbers. *)
Definition add (v1 v2 : value) : res value :=
  match v1, v2 with
  | VStr s, VStr t => Ok (VStr (s +:+ t))
  | VInt a, VInt b => Ok (VInt (a + b))
  | VStr _, VInt _ => Err TypeError
  | VInt _, VStr _ => Err TypeError
  | _, _ => Err Unsupported
  end.

(** How a statement ends: the next statement runs, the function returns,
    or an exception is raised. *)
Inductive ending : Type :=
  | Next (f : frame) (m : machine)
  | Returned (v : value) (m : machine)
  | Raised (e : error) (m : machine).

Fixpoint exec (s : stmt) (f : frame) (m : machine) : ending :=
  let fix block (body : list stmt) (f : frame) (m : machine) : ending :=
    match body with
    | [] => Next f m
    | s :: rest =>
        match exec s f m with
        | Next f' m' => block rest f' m'
        | ended => ended
        end
    end in
  match s with
  | Assign x e =>
      match eval e f m with
      | Ok v => Next ((x, v) :: f) m
      | Err e => Raised e m
      end
  | AugAssign x e =>
      match bind (load x f m) (fun v1 =>
            bind (eval e f m) (fun v2 => add v1 v2)) with
      | Ok v => Next ((x, v) :: f) m
      | Err e => Raised e m
      end
  | If test body =>
      match eval test f m with
      | Ok v => if truth v then block body f m else Next f m
      | Err e => Raised e m
      end
  | Return e =>
      match eval e f m with
      | Ok v => Returned v m
      | Err e => Raised e m
      end
  | Print e =>
      match eval e f m with
      | Ok v => Next f (Machine (globals m) (printed m ++ [format v]))
      | Err e => Raised e m
      end
  | AssignGlobal x e =>
      match eval e f m with
      | Ok v => Next f (Machine (<[x := v]> (globals m)) (printed m))
      | Err e => Raised e m
      end
  end.

Fixpoint run (body : list stmt) (f : frame) (m : machine) : ending :=
  match body with
  | [] => Next f m
  | s :: rest =>
      match exec s f m with
      | Next f' m' => run rest f' m'
      | ended => ended
      end
  end.

End Run.

(** Binding the arguments of a call to the parameters, each parameter
    with its default if it has one. *)
Fixpoint bind_arguments (params : list (string * option value))
    (args : list value) : res frame :=
  match params, args with
  | [], [] => Ok []
  | [], _ :: _ => Err TypeError
  | (x, _) :: params, a :: args =>
      bind (bind_arguments params args) (fun f => Ok ((x, a) :: f))
  | (x, Some d) :: params, [] =>
      bind (bind_arguments params []) (fun f => Ok ((x, d) :: f))
  | (_, None) :: _, [] => Err TypeError
  end.

(** A call: the arguments are bound in a new frame, the body runs, and
    the frame is dropped; a body that ends without [return] gives
    [None]. *)
Definition call (params : list (string * option value)) (body : list stmt)
    (args : list value) (m : machine) : res value * machine :=
  match bind_arguments params args with
  | Err e => (Err e, m)
  | Ok f =>
      match run (map fst params ++ flat_map assigned body) body f m with
      | Next _ m' => (Ok VNone, m')
      | Returned v m' => (Ok v, m')
      | Raised e m' => (Err e, m')
      end
  end.

(** [def build_indeed_url(job_title, location, radius, start=0, limit=15)] *)
Definition build_indeed_url_params : list (string * option value) :=
  [("job_title", None); ("location", None); ("radius", None);
   ("start", Some (VInt 0)); ("limit", Some (VInt 15))].

(** Its statements, lines 58 to 68 of [utils.py]. *)
Definition build_indeed_url_body : list stmt :=
  [Assign "job_title" (Replace (Name "job_title") " " "+");
   Assign "location" (Replace (Name "location") " " "+");
   Assign "url"
     (FString [Text "https://de.indeed.com/jobs?q="; Hole "job_title";
               Text "&l="; Hole "location"; Text "&radius="; Hole "radius";
               Text "&limit="; Hole "limit"]);
   If (Gt (Name "start") (Int 0))
     [AugAssign "url" (FString [Text "&start="; Hole "start"])];
   Return (Name "url")].

End Py.

(** ** Vocabulary of the specification *)

Module Spec.

(** The characters of the decimal text of a number: digits, after a
    possible minus sign. *)
Definition decimal_chars : list ascii := Str.chars "-0123456789".

(** [s] without its first [n] characters. *)
Fixpoint drop (n : nat) (s : string) : string :=
  match n, s with
  | O, _ => s
  | S _, EmptyString => EmptyString
  | S k, String _ s' => drop k s'
  end.

(** The text after the first occurrence of [sub] in [s]. *)
Fixpoint after_first (sub s : string) : option string :=
  if Str.prefix_of sub s then Some (drop (String.length sub) s)
  else
    match s with
    | EmptyString => None
    | String _ s' => after_first sub s'
    end.

(** The text before the first occurrence of [sub] in [s]; all of [s]
    when there is none. *)
Fixpoint before_first (sub s : string) : string :=
  if Str.prefix_of sub s then EmptyString
  else
    match s with
    | EmptyString => EmptyString
    | String c s' => String c (before_first sub s')
    end.

(** The job id as the specification words it: the text strictly between
    the first ['jk='] and the next ['&'], or the end of the string. *)
Definition job_id_between (url : string) : string :=
  match after_first "jk=" url with
  | Some tail => before_first "&" tail
  | None => "unknown"
  end.

(** The same, where the text also ends at the next ['jk=']. *)
Definition job_id_piece (url : string) : string :=
  match after_first "jk=" url with
  | Some tail => before_first "&" (before_first "jk=" tail)
  | None => "unknown"
  end.

(** [s] ends with [suffix]. *)
Definition ends_with (suffix s : string) : Prop :=
  exists p : string, s = p +:+ suffix.

(** First match wins on a card: of [selectors], tried in order, the one
    at position [i] is the first that finds an element, [e]; the ones
    before it find nothing, and [consulted] are the selectors up to and
    including it. *)
Definition first_match (c : card) (selectors consulted : list string)
    (e : element) : Prop :=
  exists (i : nat) (s : string),
    selectors !! i = Some s /\
    find_element c s = Found e /\
    (forall (j : nat) (s' : string),
        (j < i)%nat -> selectors !! j = Some s' ->
        find_element c s' = NoSuchElement) /\
    consulted = take (S i) selectors.

(** No selector of the list finds an element, and all were consulted. *)
Definition no_match (c : card) (selectors consulted : list string) : Prop :=
  (forall s : string, s ∈ selectors -> find_element c s = NoSuchElement) /\
  consulted = selectors.

(** A field read from the text of the first match, with a default. *)
Definition text_field (c : card) (selectors consulted : list string)
    (default : string) (value : string) : Prop :=
  (exists (e : element) (t : string),
      first_match c selectors consulted e /\
      text e = Got t /\ value = Str.strip t)
  \/ (no_match c selectors consulted /\ value = default).

(** The link and the job id: read from the [href] of the first match, the
    id being the piece of the link after ['jk=']; the defaults when no
    selector matches. *)
Definition link_field (c : card) (selectors consulted : list string)
    (url job_id : string) : Prop :=
  (exists (e : element),
      first_match c selectors consulted e /\ href e = Got (Some url) /\
      job_id = job_id_piece url)
  \/ (no_match c selectors consulted /\
      url = "Not available" /\ job_id = "unknown").

(** The lines before the first command at the prompt: none of them is a
    command. *)
Definition is_command (s : string) : bool :=
  let u := command_of s in
  String.eqb u "done" || String.eqb u "save" || String.eqb u "quit".

Definition not_command (ev : input_event) : Prop :=
  match ev with
  | Line s => is_command s = false
  | Closed => True
  end.

(** The operator's first command is [cmd]: it is entered on some line
    of the input, after lines that are not commands. *)
Definition operator_enters (cmd : string) (stdin : list input_event) : Prop :=
  exists (before : list input_event) (s : string) (after : list input_event),
    stdin = (before ++ Line s :: after)%list /\
    Forall not_command before /\
    command_of s = cmd.

(** The first command in the input: the command of the first line that
    is one, if any. *)
Fixpoint first_command (stdin : list input_event) : option string :=
  match stdin with
  | [] => None
  | Closed :: rest => first_command rest
  | Line s :: rest =>
      if is_command s then Some (command_of s) else first_command rest
  end.

(** A card selector finds no job card: the lookup raises or returns an
    empty list. *)
Definition no_cards (d : driver) (selector : string) : Prop :=
  match find_elements d CSS_SELECTOR selector with
  | Ret (_ :: _) => False
  | _ => True
  end.

(** The dictionary extracted from a card, when there is one. *)
Definition extracted (c : card) : option (gmap string string) :=
  match fst (_extract_job_data c) with
  | Ret (Some job_data) => Some job_data
  | _ => None
  end.

(** What [clean_value] leaves of a text: the part before the first
    ['#'], stripped, when there is a ['#']. *)
Definition cleaned (value : string) : string :=
  if Str.contains "#" value
  then Str.strip (before_first "#" value) else value.

(** The variables whose text [get_config] cleans. *)
Definition cleaned_keys : list string :=
  ["RADIUS"; "RESULTS_PER_PAGE"; "MAX_PAGES"; "OUTPUT_CSV"; "OUTPUT_JSON";
   "HEADLESS"; "TIMEOUT"].

(** The numeric variables, each with its default text. *)
Definition numeric_settings : list (string * string) :=
  [("RADIUS", "25"); ("RESULTS_PER_PAGE", "15"); ("MAX_PAGES", "5");
   ("TIMEOUT", "10")].

(** The keys of a job dictionary, and those whose value is a text of the
    card. *)
Definition job_keys : gset string :=
  {["title"; "company"; "location"; "salary"; "url"; "job_id"; "snippet";
    "date_posted"]}.

Definition text_keys : list string :=
  ["title"; "company"; "location"; "salary"; "snippet"; "date_posted"].

(** A card that can be read: no lookup fails in the driver, and an
    element that is found has a text and a link. *)
Definition readable (c : card) : Prop :=
  forall selector : string,
    match find_element c selector with
    | Found e =>
        (exists t : string, text e = Got t)
        /\ (exists u : string, href e = Got (Some u))
    | NoSuchElement => True
    | DriverError => False
    end.

(** A cookie button the loop of [_handle_cookie_consent] gets clicked:
    scrolling to it succeeds, and so does the click or the script. *)
Definition accepts (x : button) : bool :=
  match scroll_into_view x with
  | Raise _ => false
  | Ret _ =>
      match click x with
      | Ret _ => true
      | Raise _ =>
          match script_click x with
          | Ret _ => true
          | Raise _ => false
          end
      end
  end.

(** The first selector that answers otherwise than with
    [NoSuchElementException] finds the button [x]. *)
Definition first_button (b : browser) (selectors : list string) (x : button)
  : Prop :=
  exists (i : nat) (s : string),
    selectors !! i = Some s /\
    find_button b s = Found x /\
    (forall (j : nat) (s' : string),
        (j < i)%nat -> selectors !! j = Some s' ->
        find_button b s' = NoSuchElement).

(** The answer at the prompt of [go_to_next_page]: the first line, or
    the second when the input was closed once before it. *)
Definition answer (stdin rest : list input_event) (s : string) : Prop :=
  stdin = Line s :: rest \/ stdin = Closed :: Line s :: rest.

(** The jobs of a round of [main]. *)
Definition jobs_of (v : Main.visit) : list (gmap string string) :=
  match extract_job_listings (Main.listing v) with
  | Ret jobs => jobs
  | Raise _ => []
  end.

(** A file name that is one component of a path. *)
Definition plain_name (f : string) : Prop :=
  f <> "" /\ f <> "." /\ Str.contains "/" f = false.

End Spec.

(** ** Example inputs *)

Module Examples.

(** A card on which no selector finds anything. *)
Definition bare_card : card := Card (fun _ => NoSuchElement).

(** What is extracted from it: every field has its default. *)
Definition bare_job : gmap string string :=
  <["date_posted" := "Not specified"]> (<["snippet" := "Not available"]>
  (<["job_id" := "unknown"]> (<["url" := "Not available"]>
  (<["salary" := "Not specified"]> (<["location" := "Location not found"]>
  (<["company" := "Company not found"]> (<["title" := "Title not found"]> ∅))))))).

(** A card whose link has a second ['jk='] before the next ['&']. *)
Definition twice_jk_url : string :=
  "https://de.indeed.com/rc/clk?jk=abcjk=def&from=serp".

Definition twice_jk_card : card :=
  Card (fun selector =>
          if String.eqb selector "h2.jobTitle a"
          then Found (Element (Got "Engineer") (Got (Some twice_jk_url)))
          else NoSuchElement).

(** A card with a title under the second title selector and a link under
    the first link selector. *)
Definition plain_card : card :=
  Card (fun selector =>
          if String.eqb selector "h2.jobTitle a span"
          then Found (Element (Got "  Data Engineer ") Stale)
          else if String.eqb selector "h2.jobTitle a"
          then Found (Element (Got "Data Engineer")
                        (Got (Some "https://de.indeed.com/rc/clk?jk=4f2a9c&fccid=77")))
          else NoSuchElement).

(** What is extracted from these two cards. *)
Definition plain_job : gmap string string :=
  <["title" := "Data Engineer"]>
    (<["url" := "https://de.indeed.com/rc/clk?jk=4f2a9c&fccid=77"]>
    (<["job_id" := "4f2a9c"]> bare_job)).

Definition twice_jk_job : gmap string string :=
  <["url" := twice_jk_url]> (<["job_id" := "abc"]> bare_job).

(** A card whose first title element went stale. *)
Definition stale_card : card :=
  Card (fun selector =>
          if String.eqb selector "h2.jobTitle span"
          then Found (Element Stale Stale)
          else NoSuchElement).

(** A driver on whose page the challenge lookups raise. *)
Definition broken_page : driver :=
  Driver (fun _ => Ret tt) (fun _ _ => Raise WebDriverException) (Ret [])
    (fun _ => Ret tt) None (fun _ => Ret tt).

(** A driver that finds nothing on the page and has no cookie file. *)
Definition empty_page : driver :=
  Driver (fun _ => Ret tt) (fun _ _ => Ret []) (Ret []) (fun _ => Ret tt)
    None (fun _ => Ret tt).

(** A driver whose first card selector finds three cards, one of which
    cannot be extracted. *)
Definition three_cards : driver :=
  Driver (fun _ => Ret tt)
    (fun by_ value =>
       match by_ with
       | CSS_SELECTOR =>
           if String.eqb value "div[data-testid='jobCard']"
           then Ret [bare_card; stale_card; plain_card]
           else Ret []
       | _ => Ret []
       end)
    (Ret []) (fun _ => Ret tt) None (fun _ => Ret tt).

(** A file system with nothing in it, and nothing printed. *)
Definition empty_world : world := World ∅ [].

(** [int] on plain decimal numerals. *)
Definition decimal (s : string) : option Z :=
  Z.of_int <$> NilZero.int_of_string s.

(** An environment with comments after two values. *)
Definition commented_env : gmap string string :=
  <["RADIUS" := "30 # km"]> (<["OUTPUT_JSON" := "false# no JSON"]> ∅).

(** A button that can be scrolled to and clicked, and one whose click
    fails while the script succeeds. *)
Definition good_button : button := Button (Ret tt) (Ret tt) (Ret tt).
Definition covered_button : button :=
  Button (Ret tt) (Raise WebDriverException) (Ret tt).


(** A page whose next button is found by the third selector; after the
    click the job cards of [three_cards] are on the page. *)
Definition middle_page : browser :=
  Browser three_cards
    (fun selector =>
       if String.eqb selector "a[aria-label='Next']" then Found covered_button
       else NoSuchElement)
    (fun _ _ => Ret []).

(** The same, but no job card shows after the click. *)
Definition stuck_page : browser :=
  Browser empty_page
    (fun selector =>
       if String.eqb selector "a[aria-label='Next']" then Found covered_button
       else NoSuchElement)
    (fun _ _ => Ret []).

(** A run of [main] over pages that all look like [middle_page]. *)
Definition same_pages : nat -> Main.visit :=
  fun _ => Main.Visit three_cards middle_page middle_page.

(** A world in which [output] is a directory. *)
Definition ready_world : world := World (<["output" := Directory]> ∅) [].

End Examples.

(** * Properties *)

(** ** Strings *)

Lemma append_nil (b : string) : EmptyString +:+ b = b.
Proof. reflexivity. Qed.

Lemma append_cons (x : ascii) (a b : string) :
  String x a +:+ b = String x (a +:+ b).
Proof. reflexivity. Qed.

Lemma append_assoc (a b c : string) : (a +:+ b) +:+ c = a +:+ b +:+ c.
Proof.
  induction a as [|x a IH]; [reflexivity|].
  rewrite !append_cons. f_equal. exact IH.
Qed.

Lemma append_empty_r (a : string) : a +:+ EmptyString = a.
Proof.
  induction a as [|x a IH]; [reflexivity|].
  rewrite append_cons. f_equal. exact IH.
Qed.

Lemma chars_app (a b : string) :
  Str.chars (a +:+ b) = (Str.chars a ++ Str.chars b)%list.
Proof.
  unfold Str.chars. induction a as [|x a IH]; [reflexivity|].
  rewrite append_cons. simpl. f_equal. exact IH.
Qed.


Lemma chars_length (a : string) : length (Str.chars a) = String.length a.
Proof. unfold Str.chars. induction a as [|x a IH]; simpl; [reflexivity | f_equal; exact IH]. Qed.

Lemma chars_lookup (a : string) (i : nat) : Str.chars a !! i = String.get i a.
Proof.
  unfold Str.chars. revert i.
  induction a as [|x a IH]; intros [|i]; simpl; try reflexivity. apply IH.
Qed.

Lemma chars_replace (old new : ascii) (s : string) :
  Str.chars (Str.replace old new s)
  = map (fun c => if Ascii.eqb c old then new else c) (Str.chars s).
Proof.
  unfold Str.chars. induction s as [|x s IH]; simpl; [reflexivity | f_equal; exact IH].
Qed.

Lemma replace_length (old new : ascii) (s : string) :
  String.length (Str.replace old new s) = String.length s.
Proof. induction s as [|x s IH]; simpl; [reflexivity | f_equal; exact IH]. Qed.

(** After the replacement the old character is gone, when the new one
    differs from it. *)
Lemma replace_removes (old new : ascii) (s : string) :
  new <> old -> old ∉ Str.chars (Str.replace old new s).
Proof.
  intros Hne. rewrite chars_replace. intros Hin.
  apply list_elem_of_fmap in Hin as (c & Hc & _).
  destruct (Ascii.eqb_spec c old) as [E|Hco]; congruence.
Qed.

Ltac in_decimal := apply (bool_decide_unpack _); vm_compute; exact I.

Lemma string_of_uint_chars (d : Decimal.uint) (c : ascii) :
  c ∈ Str.chars (NilEmpty.string_of_uint d) -> c ∈ Spec.decimal_chars.
Proof.
  unfold Str.chars.
  induction d; simpl; intros H;
    try (apply elem_of_cons in H as [->|H]; [in_decimal | auto]).
  inversion H.
Qed.

Lemma of_int_chars (n : Z) (c : ascii) :
  c ∈ Str.chars (Str.of_int n) -> c ∈ Spec.decimal_chars.
Proof.
  assert (Hu : forall d, c ∈ Str.chars (NilZero.string_of_uint d) -> c ∈ Spec.decimal_chars).
  { intros d. destruct d;
      [| exact (string_of_uint_chars _ c) ..].
    intros H. change (c ∈ ["0"%char]) in H.
    apply elem_of_cons in H as [->|H]; [in_decimal | inversion H]. }
  unfold Str.of_int. destruct (Z.to_int n) as [d|d]; unfold NilZero.string_of_int.
  - apply Hu.
  - intros H. change (c ∈ "-"%char :: Str.chars (NilZero.string_of_uint d)) in H.
    apply elem_of_cons in H as [->|H]; [in_decimal | exact (Hu _ H)].
Qed.

Lemma of_int_no_space (n : Z) : " "%char ∉ Str.chars (Str.of_int n).
Proof.
  intros H. apply of_int_chars in H. vm_compute in H.
  repeat (apply elem_of_cons in H as [H|H]; [discriminate H|]). inversion H.
Qed.

Lemma of_int_no_ampersand (n : Z) : "&"%char ∉ Str.chars (Str.of_int n).
Proof.
  intros H. apply of_int_chars in H. vm_compute in H.
  repeat (apply elem_of_cons in H as [H|H]; [discriminate H|]). inversion H.
Qed.

(** Two lists that end in the same way after their last [a]. *)
Lemma after_last_unique {A} (a : A) (p q x y : list A) :
  (p ++ a :: x = q ++ a :: y)%list -> a ∉ x -> a ∉ y -> x = y.
Proof.
  intros H Hx Hy.
  assert (Hr : (rev x ++ a :: rev p = rev y ++ a :: rev q)%list).
  { apply (f_equal (@rev A)) in H.
    rewrite !rev_app_distr in H. simpl in H.
    rewrite <- !app_assoc in H. exact H. }
  assert (Hrev : forall l : list A, a ∉ l -> a ∉ rev l).
  { intros l Hl Hin. apply Hl.
    apply list_elem_of_In, in_rev, list_elem_of_In. exact Hin. }
  assert (Hx' : a ∉ rev x) by (apply Hrev; exact Hx).
  assert (Hy' : a ∉ rev y) by (apply Hrev; exact Hy).
  assert (E : rev x = rev y).
  { clear H Hx Hy. revert Hr Hx' Hy'. generalize (rev x) (rev y) (rev p) (rev q).
    induction l as [|u l IH]; intros [|v l'] p' q' Hr Hu Hv; simpl in Hr.
    - reflexivity.
    - injection Hr as -> _. exfalso. apply Hv. left.
    - injection Hr as -> _. exfalso. apply Hu. left.
    - injection Hr as -> Hr. f_equal.
      apply (IH l' p' q' Hr).
      + intros Hin. apply Hu. now right.
      + intros Hin. apply Hv. now right. }
  rewrite <- (rev_involutive x), E. apply rev_involutive.
Qed.

(** ** [build_indeed_url] *)

Ltac literal := apply (bool_decide_unpack _); vm_compute; exact I.

Lemma get_replace (old new : ascii) (s : string) (i : nat) :
  String.get i (Str.replace old new s)
  = (fun c => if Ascii.eqb c old then new else c) <$> String.get i s.
Proof.
  rewrite <- !chars_lookup, chars_replace. apply list_lookup_fmap.
Qed.

(** The tests of [tests/test_utils.py]. *)
Example test_basic_url :
  build_indeed_url "software engineer" "Berlin" 25 default_start default_limit
  = "https://de.indeed.com/jobs?q=software+engineer&l=Berlin&radius=25&limit=15".
Proof. reflexivity. Qed.

Example test_url_with_pagination :
  build_indeed_url "data scientist" "Munich" 10 30 20
  = "https://de.indeed.com/jobs?q=data+scientist&l=Munich&radius=10&limit=20&start=30".
Proof. reflexivity. Qed.

Example test_url_with_special_characters :
  build_indeed_url "C++ developer" "Frankfurt am Main" 15 default_start default_limit
  = "https://de.indeed.com/jobs?q=C+++developer&l=Frankfurt+am+Main&radius=15&limit=15".
Proof. reflexivity. Qed.

(** The URL as one concatenation. *)
Lemma build_indeed_url_unfold (job_title location : string) (radius start limit : Z) :
  build_indeed_url job_title location radius start limit
  = "https://de.indeed.com/jobs?q=" +:+ Str.replace " " "+" job_title
      +:+ "&l=" +:+ Str.replace " " "+" location
      +:+ "&radius=" +:+ Str.of_int radius +:+ "&limit=" +:+ Str.of_int limit
      +:+ (if (0 <? start)%Z then "&start=" +:+ Str.of_int start else "").
Proof.
  unfold build_indeed_url. destruct (0 <? start)%Z.
  - now rewrite !append_assoc.
  - now rewrite append_empty_r.
Qed.

(** C1: every space of [job_title] and of [location] is replaced by a plus
    sign before the two are put into the URL: the piece that stands for
    each argument is the argument with [' '] mapped to ['+'], character by
    character, and the URL that is returned holds no space at all. *)
Theorem build_indeed_url_spaces_become_plus
    (job_title location : string) (radius start limit : Z) :
  let plus := fun c : ascii => if Ascii.eqb c " " then "+"%char else c in
  build_indeed_url job_title location radius start limit
  = "https://de.indeed.com/jobs?q=" +:+ Str.replace " " "+" job_title
      +:+ "&l=" +:+ Str.replace " " "+" location
      +:+ "&radius=" +:+ Str.of_int radius +:+ "&limit=" +:+ Str.of_int limit
      +:+ (if (0 <? start)%Z then "&start=" +:+ Str.of_int start else "")
  /\ Str.chars (Str.replace " " "+" job_title) = map plus (Str.chars job_title)
  /\ Str.chars (Str.replace " " "+" location) = map plus (Str.chars location)
  /\ Forall (fun c : ascii => c <> " "%char)
       (Str.chars (build_indeed_url job_title location radius start limit)).
Proof.
  intros plus. split; [apply build_indeed_url_unfold|].
  split; [apply chars_replace|]. split; [apply chars_replace|].
  apply Forall_forall. intros c Hc ->.
  rewrite build_indeed_url_unfold in Hc.
  assert (Hr : forall s, " "%char ∉ Str.chars (Str.replace " " "+" s))
    by (intros s; apply replace_removes; discriminate).
  assert (Hl : forall l : string, " "%char ∉ Str.chars l ->
      forall t, " "%char ∈ Str.chars (l +:+ t) -> " "%char ∈ Str.chars t).
  { intros l Hl t Ht. rewrite chars_app in Ht.
    apply elem_of_app in Ht as [Ht|Ht]; [contradiction | exact Ht]. }
  apply Hl in Hc; [|literal]. apply Hl in Hc; [|apply Hr].
  apply Hl in Hc; [|literal]. apply Hl in Hc; [|apply Hr].
  apply Hl in Hc; [|literal]. apply Hl in Hc; [|apply of_int_no_space].
  apply Hl in Hc; [|literal]. apply Hl in Hc; [|apply of_int_no_space].
  destruct (0 <? start)%Z.
  - apply Hl in Hc; [|literal]. exact (of_int_no_space _ Hc).
  - inversion Hc.
Qed.

(** A string that ends with a [limit] parameter does not end with a
    [start] parameter. *)
Lemma no_start_suffix (front l s p : string) :
  front +:+ "&limit=" +:+ l = p +:+ "&start=" +:+ s ->
  "&"%char ∉ Str.chars l -> "&"%char ∉ Str.chars s -> False.
Proof.
  intros H Hl Hs. apply (f_equal Str.chars) in H.
  rewrite !chars_app in H.
  change (Str.chars "&limit=") with ("&"%char :: Str.chars "limit=") in H.
  change (Str.chars "&start=") with ("&"%char :: Str.chars "start=") in H.
  rewrite <- !app_comm_cons in H.
  apply (after_last_unique "&"%char (Str.chars front) (Str.chars p)) in H.
  - discriminate H.
  - intros Hin. apply elem_of_app in Hin as [Hin|Hin]; [|exact (Hl Hin)].
    revert Hin. literal.
  - intros Hin. apply elem_of_app in Hin as [Hin|Hin]; [|exact (Hs Hin)].
    revert Hin. literal.
Qed.

(** C2: the URL is the base string, followed by ["&start=" start] when
    [start] is greater than 0 and by nothing otherwise; and it ends with
    that suffix exactly when [start] is greater than 0. *)
Theorem build_indeed_url_start_parameter
    (job_title location : string) (radius start limit : Z) :
  let base :=
    "https://de.indeed.com/jobs?q=" +:+ Str.replace " " "+" job_title
      +:+ "&l=" +:+ Str.replace " " "+" location
      +:+ "&radius=" +:+ Str.of_int radius +:+ "&limit=" +:+ Str.of_int limit in
  let url := build_indeed_url job_title location radius start limit in
  (if (0 <? start)%Z then url = base +:+ "&start=" +:+ Str.of_int start
   else url = base)
  /\ (Spec.ends_with ("&start=" +:+ Str.of_int start) url <-> (0 < start)%Z)
  /\ build_indeed_url job_title location radius default_start limit = base.
Proof.
  intros base url. subst url. unfold build_indeed_url. fold base.
  split; [destruct (0 <? start)%Z; reflexivity|].
  split; [|reflexivity].
  destruct (Z.ltb_spec 0 start) as [Hpos|Hnp].
  - split; [intros _; exact Hpos|]. intros _. exists base. reflexivity.
  - split; [|lia]. intros [p Hp]. exfalso.
    apply (no_start_suffix
             ("https://de.indeed.com/jobs?q=" +:+ Str.replace " " "+" job_title
                +:+ "&l=" +:+ Str.replace " " "+" location
                +:+ "&radius=" +:+ Str.of_int radius)
             (Str.of_int limit) (Str.of_int start) p).
    + rewrite !append_assoc. exact Hp.
    + apply of_int_no_ampersand.
    + apply of_int_no_ampersand.
Qed.

Lemma get_app_l (a b : string) (i : nat) (c : ascii) :
  String.get i a = Some c -> String.get i (a +:+ b) = Some c.
Proof.
  rewrite <- !chars_lookup, chars_app. apply lookup_app_l_Some.
Qed.

Lemma get_app_r (a b : string) (i : nat) :
  String.get (String.length a + i) (a +:+ b) = String.get i b.
Proof.
  rewrite <- !chars_lookup, chars_app, <- chars_length.
  rewrite lookup_app_r by lia. f_equal. lia.
Qed.

(** A character that is not a space stays where it was. *)
Lemma get_replace_other (s : string) (i : nat) (c : ascii) :
  String.get i s = Some c -> c <> " "%char ->
  String.get i (Str.replace " " "+" s) = Some c.
Proof.
  intros H Hc. rewrite get_replace, H. simpl.
  destruct (Ascii.eqb_spec c " ") as [E|_]; [contradiction | reflexivity].
Qed.

(** C3: nothing is percent-encoded.  A character of [job_title] or of
    [location] that is not a space stands unchanged in the URL, at its
    position after the text that precedes the argument; ["C++ developer"]
    gives the query ["q=C+++developer"]. *)
Theorem build_indeed_url_no_percent_encoding
    (job_title location : string) (radius start limit : Z) :
  let url := build_indeed_url job_title location radius start limit in
  (forall (i : nat) (c : ascii),
      String.get i job_title = Some c -> c <> " "%char ->
      String.get (String.length "https://de.indeed.com/jobs?q=" + i) url = Some c)
  /\ (forall (i : nat) (c : ascii),
      String.get i location = Some c -> c <> " "%char ->
      String.get (String.length "https://de.indeed.com/jobs?q="
                  + (String.length job_title + (String.length "&l=" + i))) url
      = Some c)
  /\ build_indeed_url "C++ developer" "Frankfurt am Main" 15 default_start default_limit
     = "https://de.indeed.com/jobs?q=" +:+ "C+++developer"
         +:+ "&l=Frankfurt+am+Main&radius=15&limit=15"
  /\ build_indeed_url "R&D #1 50%" "K+ln" 5 default_start default_limit
     = "https://de.indeed.com/jobs?q=R&D+#1+50%&l=K+ln&radius=5&limit=15".
Proof.
  intros url. subst url. rewrite build_indeed_url_unfold.
  split; [|split; [|split; reflexivity]].
  - intros i c H Hc. rewrite get_app_r.
    apply get_app_l, get_replace_other; assumption.
  - intros i c H Hc. rewrite get_app_r.
    rewrite <- (replace_length " " "+" job_title), get_app_r, get_app_r.
    apply get_app_l, get_replace_other; assumption.
Qed.

(** C4: a call of [build_indeed_url] on two strings and three numbers,
    run statement by statement from any state of the interpreter,
    returns the URL and leaves the state outside the call as it was: no
    global variable of the module is assigned and nothing is printed.
    The URL is the same from every state, so calls with equal arguments
    return equal URLs whatever happened between them.  It is also what
    the call returns when [start] and [limit] are left to their
    defaults. *)
Theorem build_indeed_url_pure
    (job_title location : string) (radius start limit : Z) (m : Py.machine) :
  let args :=
    [Py.VStr job_title; Py.VStr location; Py.VInt radius; Py.VInt start;
     Py.VInt limit] in
  Py.call Py.build_indeed_url_params Py.build_indeed_url_body args m
  = (Py.Ok (Py.VStr (build_indeed_url job_title location radius start limit)),
     m)
  /\ (forall m' : Py.machine,
        fst (Py.call Py.build_indeed_url_params Py.build_indeed_url_body
               args m')
        = fst (Py.call Py.build_indeed_url_params Py.build_indeed_url_body
                 args m))
  /\ Py.call Py.build_indeed_url_params Py.build_indeed_url_body
       [Py.VStr job_title; Py.VStr location; Py.VInt radius] m
     = (Py.Ok (Py.VStr (build_indeed_url job_title location radius
                          default_start default_limit)), m).
Proof.
  intros args.
  assert (H : forall m0 : Py.machine,
             Py.call Py.build_indeed_url_params Py.build_indeed_url_body args m0
             = (Py.Ok (Py.VStr (build_indeed_url job_title location radius
                                  start limit)), m0)).
  { intros m0. unfold Py.call, build_indeed_url. cbn.
    destruct (0 <? start)%Z; cbn; now rewrite ?append_empty_r. }
  split; [apply H|]. split.
  - intros m'. now rewrite !H.
  - unfold Py.call, build_indeed_url. cbn. now rewrite ?append_empty_r.
Qed.

(** The same syntax holds statements that do change the state outside
    the call, and expressions that read it: a [print] before the first
    statement of [build_indeed_url] adds a line, an assignment to a
    global variable changes the globals, and a function that returns a
    global variable returns what the state holds. *)
Example statements_change_the_machine (m : Py.machine) :
  Py.call Py.build_indeed_url_params
    (Py.Print (Py.Name "location") :: Py.build_indeed_url_body)
    [Py.VStr "dev"; Py.VStr "Berlin"; Py.VInt 25] m
  = (Py.Ok (Py.VStr "https://de.indeed.com/jobs?q=dev&l=Berlin&radius=25&limit=15"),
     Py.Machine (Py.globals m) (Py.printed m ++ ["Berlin"]))
  /\ Py.call Py.build_indeed_url_params
       (Py.AssignGlobal "last" (Py.Name "radius") :: Py.build_indeed_url_body)
       [Py.VStr "dev"; Py.VStr "Berlin"; Py.VInt 25] m
     = (Py.Ok (Py.VStr "https://de.indeed.com/jobs?q=dev&l=Berlin&radius=25&limit=15"),
        Py.Machine (<["last" := Py.VInt 25]> (Py.globals m)) (Py.printed m))
  /\ Py.call [] [Py.Return (Py.Name "base")] []
       (Py.Machine (<["base" := Py.VStr "de.indeed.com"]> (Py.globals m))
          (Py.printed m))
     = (Py.Ok (Py.VStr "de.indeed.com"),
        Py.Machine (<["base" := Py.VStr "de.indeed.com"]> (Py.globals m))
          (Py.printed m)).
Proof.
  split; [reflexivity|]. split; [reflexivity|].
  unfold Py.call. cbn. now rewrite lookup_insert_eq.
Qed.

(** ** [split] and the job id *)

Lemma prefix_of_empty (sep : string) :
  sep <> EmptyString -> Str.prefix_of sep EmptyString = false.
Proof. destruct sep; [congruence | reflexivity]. Qed.

Lemma drop_empty (n : nat) : Spec.drop n EmptyString = EmptyString.
Proof. destruct n; reflexivity. Qed.

(** Jumping over [k] characters is dropping them. *)
Lemma split_from_skip (sep : string) (s : string) :
  forall (k : nat) (acc : string),
    Str.split_from sep k acc s = Str.split_from sep 0 acc (Spec.drop k s).
Proof.
  induction s as [|c s IH]; intros k acc.
  - rewrite drop_empty. destruct k; reflexivity.
  - destruct k as [|k]; [reflexivity|]. simpl. apply IH.
Qed.

(** The first piece of a split is the text before the first separator, and
    the other pieces are the split of the text after it. *)
Lemma split_from_head (sep : string) (Hsep : sep <> EmptyString) (s : string) :
  forall acc : string,
    Str.split_from sep 0 acc s
    = (acc +:+ Spec.before_first sep s)
        :: match Spec.after_first sep s with
           | None => []
           | Some r => Str.split sep r
           end.
Proof.
  induction s as [|c s IH]; intros acc.
  - simpl. rewrite (prefix_of_empty sep Hsep), append_empty_r. reflexivity.
  - cbn [Str.split_from Spec.before_first Spec.after_first].
    destruct (Str.prefix_of sep (String c s)) eqn:Hp.
    + rewrite append_empty_r. f_equal.
      rewrite split_from_skip. unfold Str.split. f_equal.
      destruct sep as [|a sep]; [congruence|].
      simpl. rewrite Nat.sub_0_r. reflexivity.
    + rewrite IH. rewrite append_assoc. reflexivity.
Qed.

Lemma split_head (sep s : string) :
  sep <> EmptyString ->
  Str.split sep s !! 0%nat = Some (Spec.before_first sep s).
Proof.
  intros Hsep. unfold Str.split. rewrite split_from_head by exact Hsep.
  reflexivity.
Qed.

Lemma split_second (sep s : string) :
  sep <> EmptyString ->
  Str.split sep s !! 1%nat = Spec.before_first sep <$> Spec.after_first sep s.
Proof.
  intros Hsep. unfold Str.split at 1. rewrite split_from_head by exact Hsep.
  destruct (Spec.after_first sep s) as [r|]; [|reflexivity].
  simpl. apply split_head. exact Hsep.
Qed.

(** [sub in s] holds exactly when there is a text after a first [sub]. *)
Lemma contains_after_first (sub s : string) :
  Str.contains sub s = true <-> is_Some (Spec.after_first sub s).
Proof.
  induction s as [|c s IH]; cbn [Str.contains Spec.after_first];
    destruct (Str.prefix_of sub _); simpl.
  - split; [eauto | reflexivity].
  - split; [discriminate | intros [? ?]; discriminate].
  - split; [eauto | reflexivity].
  - exact IH.
Qed.

(** The expression for the job id never raises [IndexError], and its value
    is the text after the first ['jk='] up to the next ['jk='] or ['&']. *)
Lemma job_id_of_piece (url : string) :
  job_id_of url = Ret (Spec.job_id_piece url).
Proof.
  unfold job_id_of, Spec.job_id_piece.
  rewrite split_second by discriminate.
  destruct (Str.contains "jk=" url) eqn:Hc.
  - apply contains_after_first in Hc as [r Hr]. rewrite Hr. simpl.
    rewrite split_head by discriminate. reflexivity.
  - destruct (Spec.after_first "jk=" url) as [r|] eqn:Hr; [|reflexivity].
    assert (H : Str.contains "jk=" url = true)
      by (apply contains_after_first; eauto).
    congruence.
Qed.

Example job_id_of_example :
  job_id_of "https://de.indeed.com/rc/clk?jk=4f2a9c&fccid=77&vjs=3" = Ret "4f2a9c".
Proof. reflexivity. Qed.

Example job_id_of_without_jk :
  job_id_of "https://de.indeed.com/company/acme" = Ret "unknown".
Proof. reflexivity. Qed.

(** ** The loops of [_extract_job_data] *)

Ltac ret_inv H := inversion H; subst; clear H.

Lemma xbind_ret_inv {A B} (m : X A) (k : A -> X B) (st st' : xstate) (b : B) :
  xbind m k st = (Ret b, st') ->
  exists (a : A) (st1 : xstate), m st = (Ret a, st1) /\ k a st1 = (Ret b, st').
Proof.
  unfold xbind. destruct (m st) as [[a|e] st1]; intros H.
  - exists a, st1. split; [reflexivity | exact H].
  - discriminate H.
Qed.

Lemma first_match_here (c : card) (s : string) (rest : list string) (e : element) :
  find_element c s = Found e -> Spec.first_match c (s :: rest) [s] e.
Proof.
  intros H. exists 0%nat, s. repeat split; try assumption.
  intros j s' Hj. lia.
Qed.

Lemma first_match_later (c : card) (s : string) (rest q : list string) (e : element) :
  find_element c s = NoSuchElement ->
  Spec.first_match c rest q e -> Spec.first_match c (s :: rest) (s :: q) e.
Proof.
  intros Hs (i & s0 & Hi & Hf & Hbefore & ->).
  exists (S i), s0. repeat split; try assumption.
  intros [|j] s' Hj Hl; simpl in Hl.
  - injection Hl as <-. exact Hs.
  - apply (Hbefore j); [lia | exact Hl].
Qed.

Lemma no_match_nil (c : card) : Spec.no_match c [] [].
Proof. split; [|reflexivity]. intros s Hs. inversion Hs. Qed.

Lemma no_match_cons (c : card) (s : string) (rest q : list string) :
  find_element c s = NoSuchElement ->
  Spec.no_match c rest q -> Spec.no_match c (s :: rest) (s :: q).
Proof.
  intros Hs [Hall ->]. split; [|reflexivity].
  intros s' Hin. apply elem_of_cons in Hin as [->|Hin]; auto.
Qed.

(** A text loop that ends normally stopped at the first selector that
    found an element, or went through all of them finding none. *)
Lemma text_loop_ret (c : card) (key : string) (selectors : list string) :
  forall (st st' : xstate) (u : unit),
    text_loop c key selectors st = (Ret u, st') ->
    exists q : list string,
      queried st' = (queried st ++ q)%list /\
      ((exists (e : element) (t : string),
           Spec.first_match c selectors q e /\ text e = Got t /\
           job st' = <[key := Str.strip t]> (job st))
       \/ (Spec.no_match c selectors q /\ job st' = job st)).
Proof.
  induction selectors as [|s rest IH]; intros st st' u H.
  - ret_inv H. exists []. split; [now rewrite app_nil_r|].
    right. split; [apply no_match_nil | reflexivity].
  - cbn [text_loop] in H. unfold xbind, card_find, xlift, set_item in H.
    destruct (find_element c s) as [e| |] eqn:Hs; cbn in H.
    + destruct (text e) as [t|] eqn:Ht; cbn in H; [|discriminate H].
      ret_inv H. exists [s]. split; [reflexivity|].
      left. exists e, t. split; [apply first_match_here; exact Hs|].
      split; [exact Ht | reflexivity].
    + apply IH in H as (q & Hq & Hcase). cbn in Hq, Hcase.
      exists (s :: q). split; [rewrite Hq, <- app_assoc; reflexivity|].
      destruct Hcase as [(e & t & Hm & Ht & Hj)|[Hn Hj]].
      * left. exists e, t. split; [apply first_match_later; assumption|].
        split; assumption.
      * right. split; [apply no_match_cons; assumption | exact Hj].
    + discriminate H.
Qed.

(** The same for the loop that reads the link; the job id never fails. *)
Lemma url_loop_ret (c : card) (selectors : list string) :
  forall (st st' : xstate) (u : unit),
    url_loop c selectors st = (Ret u, st') ->
    exists q : list string,
      queried st' = (queried st ++ q)%list /\
      ((exists (e : element) (url : string),
           Spec.first_match c selectors q e /\ href e = Got (Some url) /\
           job st'
           = <["job_id" := Spec.job_id_piece url]> (<["url" := url]> (job st)))
       \/ (Spec.no_match c selectors q /\ job st' = job st)).
Proof.
  induction selectors as [|s rest IH]; intros st st' u H.
  - ret_inv H. exists []. split; [now rewrite app_nil_r|].
    right. split; [apply no_match_nil | reflexivity].
  - cbn [url_loop] in H. unfold xbind, card_find, xlift, xraise, set_item in H.
    destruct (find_element c s) as [e| |] eqn:Hs; cbn in H.
    + destruct (href e) as [[url|]|] eqn:Hh; cbn in H; try discriminate H.
      rewrite job_id_of_piece in H. cbn in H.
      ret_inv H. exists [s]. split; [reflexivity|].
      left. exists e, url. split; [apply first_match_here; exact Hs|].
      split; [exact Hh | reflexivity].
    + apply IH in H as (q & Hq & Hcase). cbn in Hq, Hcase.
      exists (s :: q). split; [rewrite Hq, <- app_assoc; reflexivity|].
      destruct Hcase as [(e & url & Hm & Hh & Hj)|[Hn Hj]].
      * left. exists e, url. split; [apply first_match_later; assumption|].
        split; assumption.
      * right. split; [apply no_match_cons; assumption | exact Hj].
    + discriminate H.
Qed.

(** A text loop followed by its default, for a key that is not set yet. *)
Lemma text_step (c : card) (key default : string) (selectors : list string)
    (st st1 st2 : xstate) (u1 u2 : unit) :
  job st !! key = None ->
  text_loop c key selectors st = (Ret u1, st1) ->
  set_if_missing key default st1 = (Ret u2, st2) ->
  exists (q : list string) (v : string),
    Spec.text_field c selectors q default v /\
    job st2 = <[key := v]> (job st) /\
    queried st2 = (queried st ++ q)%list.
Proof.
  intros Hfresh H1 H2.
  apply text_loop_ret in H1 as (q & Hq & [(e & t & Hm & Ht & Hj)|[Hn Hj]]);
    unfold set_if_missing, set_item in H2; rewrite Hj in H2.
  - rewrite lookup_insert_eq in H2. ret_inv H2.
    exists q, (Str.strip t). split; [|split; assumption].
    left. exists e, t. repeat split; assumption.
  - rewrite Hfresh in H2. ret_inv H2. cbn.
    exists q, default. split; [|split; [reflexivity | exact Hq]].
    right. split; [exact Hn | reflexivity].
Qed.

(** The link loop followed by its defaults. *)
Lemma link_step (c : card) (selectors : list string)
    (st st1 st2 : xstate) (u1 u2 : unit) :
  job st !! "url" = None ->
  url_loop c selectors st = (Ret u1, st1) ->
  match job st1 !! "url" with
  | Some _ => (Ret tt, st1)
  | None => xbind (set_item "url" "Not available")
              (fun _ => set_item "job_id" "unknown") st1
  end = (Ret u2, st2) ->
  exists (q : list string) (url id : string),
    Spec.link_field c selectors q url id /\
    job st2 = <["job_id" := id]> (<["url" := url]> (job st)) /\
    queried st2 = (queried st ++ q)%list.
Proof.
  intros Hfresh H1 H2.
  apply url_loop_ret in H1 as (q & Hq & [(e & url & Hm & Hh & Hj)|[Hn Hj]]);
    rewrite Hj in H2.
  - rewrite lookup_insert_ne, lookup_insert_eq in H2 by discriminate.
    ret_inv H2.
    exists q, url, (Spec.job_id_piece url). split; [|split; assumption].
    left. exists e. repeat split; assumption.
  - rewrite Hfresh in H2. cbn in H2. ret_inv H2. cbn.
    exists q, "Not available", "unknown".
    split; [|split; [rewrite Hj; reflexivity | exact Hq]].
    right. repeat split; [apply Hn | apply Hn].
Qed.

(** ** [_extract_job_data] *)

(** What a run of the body that returns a dictionary did: seven loops, one
    after the other, each with the selectors it consulted and the value
    it left in the dictionary. *)
Lemma extract_body_ret (c : card) (j : gmap string string) (st' : xstate) :
  extract_job_data_body c (XState ∅ []) = (Ret j, st') ->
  exists (q1 q2 q3 q4 q5 q6 q7 : list string)
         (title company location salary url job_id snippet date_posted : string),
    Spec.text_field c title_selectors q1 "Title not found" title /\
    Spec.text_field c company_selectors q2 "Company not found" company /\
    Spec.text_field c location_selectors q3 "Location not found" location /\
    Spec.text_field c salary_selectors q4 "Not specified" salary /\
    Spec.link_field c url_selectors q5 url job_id /\
    Spec.text_field c snippet_selectors q6 "Not available" snippet /\
    Spec.text_field c date_selectors q7 "Not specified" date_posted /\
    j = <["date_posted" := date_posted]> (<["snippet" := snippet]>
        (<["job_id" := job_id]> (<["url" := url]>
        (<["salary" := salary]> (<["location" := location]>
        (<["company" := company]> (<["title" := title]> ∅))))))) /\
    queried st' = (q1 ++ q2 ++ q3 ++ q4 ++ q5 ++ q6 ++ q7)%list.
Proof.
  intros H. unfold extract_job_data_body in H.
  apply xbind_ret_inv in H as (u1 & s1 & L1 & H).
  apply xbind_ret_inv in H as (v1 & t1 & D1 & H).
  destruct (text_step _ _ _ _ _ _ _ _ _ (lookup_empty _) L1 D1)
    as (q1 & title & F1 & J1 & Q1).
  cbn in J1, Q1.
  apply xbind_ret_inv in H as (u2 & s2 & L2 & H).
  apply xbind_ret_inv in H as (v2 & t2 & D2 & H).
  assert (N2 : job t1 !! "company" = None) by (rewrite J1; reflexivity).
  destruct (text_step _ _ _ _ _ _ _ _ _ N2 L2 D2)
    as (q2 & company & F2 & J2 & Q2).
  rewrite J1 in J2. rewrite Q1 in Q2.
  apply xbind_ret_inv in H as (u3 & s3 & L3 & H).
  apply xbind_ret_inv in H as (v3 & t3 & D3 & H).
  assert (N3 : job t2 !! "location" = None).
  { rewrite J2. rewrite !lookup_insert_ne by discriminate. reflexivity. }
  destruct (text_step _ _ _ _ _ _ _ _ _ N3 L3 D3)
    as (q3 & location & F3 & J3 & Q3).
  rewrite J2 in J3. rewrite Q2 in Q3.
  apply xbind_ret_inv in H as (u4 & s4 & L4 & H).
  apply xbind_ret_inv in H as (v4 & t4 & D4 & H).
  assert (N4 : job t3 !! "salary" = None).
  { rewrite J3. rewrite !lookup_insert_ne by discriminate. reflexivity. }
  destruct (text_step _ _ _ _ _ _ _ _ _ N4 L4 D4)
    as (q4 & salary & F4 & J4 & Q4).
  rewrite J3 in J4. rewrite Q3 in Q4.
  apply xbind_ret_inv in H as (u5 & s5 & L5 & H).
  apply xbind_ret_inv in H as (v5 & t5 & D5 & H).
  assert (N5 : job t4 !! "url" = None).
  { rewrite J4. rewrite !lookup_insert_ne by discriminate. reflexivity. }
  destruct (link_step _ _ _ _ _ _ _ N5 L5 D5)
    as (q5 & url & job_id & F5 & J5 & Q5).
  rewrite J4 in J5. rewrite Q4 in Q5.
  apply xbind_ret_inv in H as (u6 & s6 & L6 & H).
  apply xbind_ret_inv in H as (v6 & t6 & D6 & H).
  assert (N6 : job t5 !! "snippet" = None).
  { rewrite J5. rewrite !lookup_insert_ne by discriminate. reflexivity. }
  destruct (text_step _ _ _ _ _ _ _ _ _ N6 L6 D6)
    as (q6 & snippet & F6 & J6 & Q6).
  rewrite J5 in J6. rewrite Q5 in Q6.
  apply xbind_ret_inv in H as (u7 & s7 & L7 & H).
  apply xbind_ret_inv in H as (v7 & t7 & D7 & H).
  assert (N7 : job t6 !! "date_posted" = None).
  { rewrite J6. rewrite !lookup_insert_ne by discriminate. reflexivity. }
  destruct (text_step _ _ _ _ _ _ _ _ _ N7 L7 D7)
    as (q7 & date_posted & F7 & J7 & Q7).
  rewrite J6 in J7. rewrite Q6 in Q7.
  injection H as Hj Hst. subst j st'.
  exists q1, q2, q3, q4, q5, q6, q7,
    title, company, location, salary, url, job_id, snippet, date_posted.
  repeat (split; [assumption|]).
  rewrite Q7. rewrite <- !app_assoc. reflexivity.
Qed.

(** The method returns a dictionary exactly when its body does, and it
    never raises. *)
Lemma extract_job_data_some (c : card) (j : gmap string string) (log : list string) :
  _extract_job_data c = (Ret (Some j), log) ->
  exists st' : xstate,
    extract_job_data_body c (XState ∅ []) = (Ret j, st') /\ queried st' = log.
Proof.
  unfold _extract_job_data.
  destruct (extract_job_data_body c (XState ∅ [])) as [[j'|e] st'];
    intros H; ret_inv H.
  exists st'. split; reflexivity.
Qed.

Lemma extract_job_data_never_raises (c : card) :
  exists r : option (gmap string string), fst (_extract_job_data c) = Ret r.
Proof.
  unfold _extract_job_data.
  destruct (extract_job_data_body c (XState ∅ [])) as [[j|e] st']; cbn; eauto.
Qed.

(** When every selector of a list finds nothing, the field has its
    default. *)
Lemma first_match_found (c : card) (selectors q : list string) (e : element) :
  Spec.first_match c selectors q e ->
  exists s : string, s ∈ selectors /\ find_element c s = Found e.
Proof.
  intros (i & s & Hi & Hf & _). exists s. split; [|exact Hf].
  apply list_elem_of_lookup. eauto.
Qed.

Lemma text_field_default (c : card) (selectors q : list string) (d v : string) :
  Spec.text_field c selectors q d v ->
  Forall (fun s => find_element c s = NoSuchElement) selectors -> v = d.
Proof.
  intros [(e & t & Hm & _)|[_ ->]] Hall; [|reflexivity].
  apply first_match_found in Hm as (s & Hin & Hf).
  rewrite Forall_forall in Hall. rewrite (Hall s Hin) in Hf. discriminate Hf.
Qed.

Lemma link_field_default (c : card) (selectors q : list string) (u id : string) :
  Spec.link_field c selectors q u id ->
  Forall (fun s => find_element c s = NoSuchElement) selectors ->
  u = "Not available" /\ id = "unknown".
Proof.
  intros [(e & Hm & _)|(_ & -> & ->)] Hall; [|split; reflexivity].
  apply first_match_found in Hm as (s & Hin & Hf).
  rewrite Forall_forall in Hall. rewrite (Hall s Hin) in Hf. discriminate Hf.
Qed.

(** C5: a dictionary that [_extract_job_data] returns has exactly the
    eight keys title, company, location, salary, url, job_id, snippet and
    date_posted; and a field none of whose selectors finds an element is
    present with its default text: "Title not found", "Company not
    found", "Location not found", "Not specified" (salary), "Not
    available" (url) with "unknown" (job_id), "Not available" (snippet),
    "Not specified" (date_posted). *)
Theorem extract_job_data_fields (c : card) (j : gmap string string) :
  fst (_extract_job_data c) = Ret (Some j) ->
  let none_of (selectors : list string) :=
    Forall (fun s => find_element c s = NoSuchElement) selectors in
  dom j = ({["title"; "company"; "location"; "salary"; "url"; "job_id";
             "snippet"; "date_posted"]} : gset string)
  /\ (none_of title_selectors -> j !! "title" = Some "Title not found")
  /\ (none_of company_selectors -> j !! "company" = Some "Company not found")
  /\ (none_of location_selectors -> j !! "location" = Some "Location not found")
  /\ (none_of salary_selectors -> j !! "salary" = Some "Not specified")
  /\ (none_of url_selectors ->
      j !! "url" = Some "Not available" /\ j !! "job_id" = Some "unknown")
  /\ (none_of snippet_selectors -> j !! "snippet" = Some "Not available")
  /\ (none_of date_selectors -> j !! "date_posted" = Some "Not specified").
Proof.
  intros H none_of.
  destruct (_extract_job_data c) as [r log] eqn:E. cbn in H. subst r.
  apply extract_job_data_some in E as (st' & E & _).
  apply extract_body_ret in E
    as (q1 & q2 & q3 & q4 & q5 & q6 & q7 & title & company & location & salary
        & url & job_id & snippet & date_posted
        & F1 & F2 & F3 & F4 & F5 & F6 & F7 & -> & _).
  split.
  { rewrite !dom_insert_L, dom_empty_L. set_solver. }
  split; [intros Hn; rewrite (text_field_default _ _ _ _ _ F1 Hn);
          now simplify_map_eq|].
  split; [intros Hn; rewrite (text_field_default _ _ _ _ _ F2 Hn);
          now simplify_map_eq|].
  split; [intros Hn; rewrite (text_field_default _ _ _ _ _ F3 Hn);
          now simplify_map_eq|].
  split; [intros Hn; rewrite (text_field_default _ _ _ _ _ F4 Hn);
          now simplify_map_eq|].
  split; [intros Hn; destruct (link_field_default _ _ _ _ _ F5 Hn) as [-> ->];
          split; now simplify_map_eq|].
  split; [intros Hn; rewrite (text_field_default _ _ _ _ _ F6 Hn);
          now simplify_map_eq|].
  intros Hn. rewrite (text_field_default _ _ _ _ _ F7 Hn). now simplify_map_eq.
Qed.

Lemma extract_job_data_fields_witness :
  fst (_extract_job_data Examples.bare_card) = Ret (Some Examples.bare_job)
  /\ dom Examples.bare_job
     = ({["title"; "company"; "location"; "salary"; "url"; "job_id";
          "snippet"; "date_posted"]} : gset string)
  /\ Examples.bare_job !! "title" = Some "Title not found"
  /\ Examples.bare_job !! "salary" = Some "Not specified".
Proof.
  assert (E : fst (_extract_job_data Examples.bare_card)
              = Ret (Some Examples.bare_job)) by (vm_compute; reflexivity).
  destruct (extract_job_data_fields Examples.bare_card Examples.bare_job E)
    as (Hdom & Htitle & _ & _ & Hsalary & _).
  split; [exact E|]. split; [exact Hdom|].
  split; [apply Htitle | apply Hsalary]; repeat constructor.
Defined.

(** C7: in a call that returns a dictionary, each of the seven selector
    lists is tried in its order, the first selector that finds an element
    gives the value of the field (the stripped text, or the link with the
    job id taken from it), the selectors after it are not consulted, and
    the default is used only when no selector of the list finds an
    element.  The selectors the call consulted are, list after list, the
    ones up to and including the first match. *)
Theorem extract_job_data_first_match_wins
    (c : card) (j : gmap string string) (log : list string) :
  _extract_job_data c = (Ret (Some j), log) ->
  exists (q_title q_company q_location q_salary q_url q_snippet q_date : list string)
         (title company location salary url job_id snippet date_posted : string),
    log = (q_title ++ q_company ++ q_location ++ q_salary ++ q_url
             ++ q_snippet ++ q_date)%list
    /\ j !! "title" = Some title
    /\ Spec.text_field c title_selectors q_title "Title not found" title
    /\ j !! "company" = Some company
    /\ Spec.text_field c company_selectors q_company "Company not found" company
    /\ j !! "location" = Some location
    /\ Spec.text_field c location_selectors q_location "Location not found" location
    /\ j !! "salary" = Some salary
    /\ Spec.text_field c salary_selectors q_salary "Not specified" salary
    /\ j !! "url" = Some url /\ j !! "job_id" = Some job_id
    /\ Spec.link_field c url_selectors q_url url job_id
    /\ j !! "snippet" = Some snippet
    /\ Spec.text_field c snippet_selectors q_snippet "Not available" snippet
    /\ j !! "date_posted" = Some date_posted
    /\ Spec.text_field c date_selectors q_date "Not specified" date_posted.
Proof.
  intros E.
  apply extract_job_data_some in E as (st' & E & <-).
  apply extract_body_ret in E
    as (q1 & q2 & q3 & q4 & q5 & q6 & q7 & title & company & location & salary
        & url & job_id & snippet & date_posted
        & F1 & F2 & F3 & F4 & F5 & F6 & F7 & -> & Q).
  exists q1, q2, q3, q4, q5, q6, q7,
    title, company, location, salary, url, job_id, snippet, date_posted.
  split; [exact Q|].
  repeat (split; [first [assumption | now simplify_map_eq]|]).
  assumption.
Qed.

Lemma extract_job_data_first_match_wins_witness :
  exists (q_title q_url : list string),
    q_title = ["h2.jobTitle span"; "h2.jobTitle a span"]
    /\ q_url = ["h2.jobTitle a"]
    /\ Spec.text_field Examples.plain_card title_selectors q_title
         "Title not found" "Data Engineer"
    /\ Spec.link_field Examples.plain_card url_selectors q_url
         "https://de.indeed.com/rc/clk?jk=4f2a9c&fccid=77" "4f2a9c".
Proof.
  destruct (_extract_job_data Examples.plain_card) as [r log] eqn:E.
  assert (Hr : exists j, r = Ret (Some j)
                 /\ j !! "title" = Some "Data Engineer"
                 /\ j !! "url" = Some "https://de.indeed.com/rc/clk?jk=4f2a9c&fccid=77"
                 /\ j !! "job_id" = Some "4f2a9c").
  { apply (f_equal fst) in E. cbn in E. subst r. vm_compute. eexists.
    split; [reflexivity|]. repeat split. }
  destruct Hr as (j & -> & Ht & Hu & Hi).
  assert (Hlog : log = ["h2.jobTitle span"; "h2.jobTitle a span";
        "span[data-testid='company-name']"; ".companyName";
        ".company_location .companyName"; "div[data-testid='text-location']";
        ".companyLocation"; ".company_location .companyLocation";
        "div[data-testid='attribute_snippet_testid']"; ".salary-snippet";
        ".salaryOnly"; "h2.jobTitle a"; "div.job-snippet"; ".job-snippet";
        ".job-snippet-container"; "span.date"; ".date"; ".new"]).
  { apply (f_equal snd) in E. cbn in E. subst log. vm_compute. reflexivity. }
  destruct (extract_job_data_first_match_wins _ _ _ E)
    as (q1 & q2 & q3 & q4 & q5 & q6 & q7 & title & company & location & salary
        & url & job_id & snippet & date_posted
        & Q & T1 & F1 & _ & _ & _ & _ & _ & _ & T5 & T5' & F5 & _).
  rewrite Ht in T1. rewrite Hu in T5. rewrite Hi in T5'.
  injection T1 as <-. injection T5 as <-. injection T5' as <-.
  exists q1, q5.
  assert (H1 : q1 = ["h2.jobTitle span"; "h2.jobTitle a span"]).
  { destruct F1 as [(e & t & (i & s & Hi1 & Hf & _ & ->) & _)|[[Hall _] _]].
    - destruct i as [|[|[|[|i]]]]; cbn in Hi1; try discriminate Hi1;
        injection Hi1 as <-; vm_compute in Hf; try discriminate Hf.
      reflexivity.
    - specialize (Hall "h2.jobTitle a span"). vm_compute in Hall.
      assert (Hin : "h2.jobTitle a span" ∈ title_selectors)
        by (apply (bool_decide_unpack _); vm_compute; exact I).
      discriminate (Hall Hin). }
  assert (H5 : q5 = ["h2.jobTitle a"]).
  { destruct F5 as [(e & (i & s & Hi1 & Hf & _ & ->) & _)|[[Hall _] _]].
    - destruct i as [|[|[|i]]]; cbn in Hi1; try discriminate Hi1;
        injection Hi1 as <-; vm_compute in Hf; try discriminate Hf.
      reflexivity.
    - specialize (Hall "h2.jobTitle a"). vm_compute in Hall.
      assert (Hin : "h2.jobTitle a" ∈ url_selectors)
        by (apply (bool_decide_unpack _); vm_compute; exact I).
      discriminate (Hall Hin). }
  repeat split; assumption.
Defined.

(** ** The job id *)

(** Where the text up to the next ['&'] holds no further ['jk='], the
    piece up to the next ['jk='] or ['&'] is the text up to the next
    ['&']. *)
Lemma contains_tail (sub : string) (c : ascii) (s : string) :
  Str.contains sub (String c s) = false -> Str.contains sub s = false.
Proof.
  cbn [Str.contains]. intros H. apply orb_false_iff in H as [_ H]. exact H.
Qed.

Lemma before_first_cons (sub : string) (c : ascii) (t : string) :
  Spec.before_first sub (String c t)
  = if Str.prefix_of sub (String c t) then EmptyString
    else String c (Spec.before_first sub t).
Proof. reflexivity. Qed.

Lemma prefix_of_amp (c : ascii) (t u : string) :
  Str.prefix_of "&" (String c t) = Str.prefix_of "&" (String c u).
Proof.
  change (Ascii.eqb "&" c && true = Ascii.eqb "&" c && true). reflexivity.
Qed.

Lemma prefix_of_jk (s : string) :
  Str.prefix_of "jk=" s = true ->
  exists r : string, s = String "j" (String "k" (String "=" r)).
Proof.
  destruct s as [|c0 [|c1 [|c2 r]]]; intros H;
    try (change (Ascii.eqb "j" c0 && false = true) in H;
         rewrite andb_false_r in H; discriminate H);
    try discriminate H.
  - change (Ascii.eqb "j" c0 && (Ascii.eqb "k" c1 && false) = true) in H.
    rewrite !andb_false_r in H. discriminate H.
  - change (Ascii.eqb "j" c0 && (Ascii.eqb "k" c1 && (Ascii.eqb "=" c2 && true))
            = true) in H.
    apply andb_true_iff in H as [Hj H].
    apply andb_true_iff in H as [Hk H].
    apply andb_true_iff in H as [He _].
    apply Ascii.eqb_eq in Hj, Hk, He. subst c0 c1 c2. exists r. reflexivity.
Qed.

Lemma before_amp_before_jk (t : string) :
  Str.contains "jk=" (Spec.before_first "&" t) = false ->
  Spec.before_first "&" (Spec.before_first "jk=" t) = Spec.before_first "&" t.
Proof.
  induction t as [|c t IH]; intros H; [reflexivity|].
  rewrite (before_first_cons "jk="), (before_first_cons "&" c t).
  rewrite (before_first_cons "&" c t) in H.
  destruct (Str.prefix_of "jk=" (String c t)) eqn:Hjk.
  - destruct (Str.prefix_of "&" (String c t)) eqn:Hamp; [reflexivity|].
    exfalso. apply prefix_of_jk in Hjk as (r & Hr).
    injection Hr as -> ->. cbn in H. discriminate H.
  - rewrite before_first_cons.
    rewrite (prefix_of_amp c (Spec.before_first "jk=" t) t).
    destruct (Str.prefix_of "&" (String c t)) eqn:Hamp; [reflexivity|].
    f_equal. apply IH. apply (contains_tail _ c). exact H.
Qed.

Lemma job_id_piece_between (url : string) :
  (forall tail : string,
      Spec.after_first "jk=" url = Some tail ->
      Str.contains "jk=" (Spec.before_first "&" tail) = false) ->
  Spec.job_id_piece url = Spec.job_id_between url.
Proof.
  intros H. unfold Spec.job_id_piece, Spec.job_id_between.
  destruct (Spec.after_first "jk=" url) as [tail|]; [|reflexivity].
  apply before_amp_before_jk, H. reflexivity.
Qed.

(** C10, as amended: in a dictionary that is returned, when a link
    selector matched, [url] is the [href] of the first match and [job_id]
    is the text of it after the first ['jk='] up to the next ['jk='] or
    ['&'], whichever comes first, or up to the end, and "unknown" when
    the link holds no ['jk=']; when no link selector matched, [url] is
    "Not available" and [job_id] is "unknown". *)
Theorem extract_job_data_job_id (c : card) (j : gmap string string) :
  fst (_extract_job_data c) = Ret (Some j) ->
  (exists (e : element) (q : list string) (url : string),
      Spec.first_match c url_selectors q e /\ href e = Got (Some url)
      /\ j !! "url" = Some url
      /\ j !! "job_id"
         = Some (match Spec.after_first "jk=" url with
                 | Some tail => Spec.before_first "&" (Spec.before_first "jk=" tail)
                 | None => "unknown"
                 end)
      /\ (Str.contains "jk=" url = true <-> is_Some (Spec.after_first "jk=" url)))
  \/ (Forall (fun s => find_element c s = NoSuchElement) url_selectors
      /\ j !! "url" = Some "Not available" /\ j !! "job_id" = Some "unknown").
Proof.
  intros H.
  destruct (_extract_job_data c) as [r log] eqn:E. cbn in H. subst r.
  apply extract_job_data_some in E as (st' & E & _).
  apply extract_body_ret in E
    as (q1 & q2 & q3 & q4 & q5 & q6 & q7 & title & company & location & salary
        & url & job_id & snippet & date_posted
        & _ & _ & _ & _ & F5 & _ & _ & -> & _).
  destruct F5 as [(e & Hm & Hh & ->)|([Hall _] & -> & ->)].
  - left. exists e, q5, url. split; [exact Hm|]. split; [exact Hh|].
    split; [now simplify_map_eq|]. split; [now simplify_map_eq|].
    apply contains_after_first.
  - right. split; [apply Forall_forall; exact Hall|].
    split; now simplify_map_eq.
Qed.

Lemma extract_job_data_job_id_witness :
  exists j : gmap string string,
    fst (_extract_job_data Examples.plain_card) = Ret (Some j)
    /\ j !! "url" = Some "https://de.indeed.com/rc/clk?jk=4f2a9c&fccid=77"
    /\ j !! "job_id" = Some "4f2a9c".
Proof.
  assert (E : fst (_extract_job_data Examples.plain_card)
              = Ret (Some Examples.plain_job)) by (vm_compute; reflexivity).
  assert (Hurl : Examples.plain_job !! "url"
                 = Some "https://de.indeed.com/rc/clk?jk=4f2a9c&fccid=77")
    by (vm_compute; reflexivity).
  exists Examples.plain_job. split; [exact E|].
  destruct (extract_job_data_job_id Examples.plain_card _ E)
    as [(e & q & url & Hm & Hh & Hu & Hi & _)|(Hall & _)].
  - split; [exact Hurl|]. rewrite Hurl in Hu. injection Hu as <-. exact Hi.
  - exfalso. apply Forall_inv in Hall. vm_compute in Hall. discriminate Hall.
Defined.

(** C10 as the specification words it fails where a second ['jk=']
    comes before the next ['&']: the code stops at it. *)
Lemma job_id_stops_at_second_jk :
  exists j : gmap string string,
    fst (_extract_job_data Examples.twice_jk_card) = Ret (Some j)
    /\ j !! "url" = Some Examples.twice_jk_url
    /\ Str.contains "jk=" Examples.twice_jk_url = true
    /\ j !! "job_id" = Some "abc"
    /\ Spec.job_id_between Examples.twice_jk_url = "abcjk=def"
    /\ j !! "job_id" <> Some (Spec.job_id_between Examples.twice_jk_url).
Proof.
  assert (Hid : Examples.twice_jk_job !! "job_id" = Some "abc")
    by (vm_compute; reflexivity).
  assert (Hb : Spec.job_id_between Examples.twice_jk_url = "abcjk=def")
    by (vm_compute; reflexivity).
  exists Examples.twice_jk_job.
  split; [vm_compute; reflexivity|]. split; [vm_compute; reflexivity|].
  split; [vm_compute; reflexivity|]. split; [exact Hid|]. split; [exact Hb|].
  rewrite Hid, Hb. discriminate.
Qed.

(** ** [extract_job_listings] *)

Lemma extracted_not_empty (c : card) (j : gmap string string) :
  fst (_extract_job_data c) = Ret (Some j) -> j <> ∅.
Proof.
  intros H. destruct (_extract_job_data c) as [r log] eqn:E. cbn in H. subst r.
  apply extract_job_data_some in E as (st' & E & _).
  apply extract_body_ret in E
    as (q1 & q2 & q3 & q4 & q5 & q6 & q7 & title & company & location & salary
        & url & job_id & snippet & date_posted & _ & _ & _ & _ & _ & _ & _ & -> & _).
  apply insert_non_empty.
Qed.

(** The loop over the cards keeps, in order, what could be extracted. *)
Lemma collect_jobs_omap (cards : list card) :
  forall jobs : list (gmap string string),
    collect_jobs cards jobs = (jobs ++ omap Spec.extracted cards)%list.
Proof.
  induction cards as [|c cards IH]; intros jobs.
  - cbn. now rewrite app_nil_r.
  - cbn [collect_jobs omap list_omap]. unfold Spec.extracted at 1.
    destruct (fst (_extract_job_data c)) as [[j|]|e] eqn:E.
    + rewrite bool_decide_eq_false_2 by (apply (extracted_not_empty c); exact E).
      rewrite IH, <- app_assoc. reflexivity.
    + apply IH.
    + apply IH.
Qed.

Lemma find_job_cards_none (d : driver) (selectors : list string) :
  forall job_cards : option (list card),
    Forall (Spec.no_cards d) selectors ->
    job_cards = None \/ job_cards = Some [] ->
    find_job_cards d selectors job_cards = None
    \/ find_job_cards d selectors job_cards = Some [].
Proof.
  induction selectors as [|s rest IH]; intros jc Hall Hjc; [exact Hjc|].
  apply Forall_cons in Hall as [Hs Hall]. cbn [find_job_cards].
  unfold Spec.no_cards in Hs.
  destruct (find_elements d CSS_SELECTOR s) as [[|c cs]|e].
  - cbn. apply IH; [exact Hall | now right].
  - contradiction.
  - apply IH; assumption.
Qed.

Lemma find_job_cards_first (d : driver) (selectors : list string) :
  forall (job_cards : option (list card)) (i : nat) (s : string) (c : card)
         (cards : list card),
    selectors !! i = Some s ->
    find_elements d CSS_SELECTOR s = Ret (c :: cards) ->
    (forall (k : nat) (s' : string),
        (k < i)%nat -> selectors !! k = Some s' -> Spec.no_cards d s') ->
    find_job_cards d selectors job_cards = Some (c :: cards).
Proof.
  induction selectors as [|s0 rest IH]; intros jc i s c cards Hi Hf Hbefore.
  - discriminate Hi.
  - destruct i as [|i]; cbn in Hi.
    + injection Hi as ->. cbn [find_job_cards]. rewrite Hf. reflexivity.
    + assert (H0 : Spec.no_cards d s0) by (apply (Hbefore 0%nat); [lia | reflexivity]).
      cbn [find_job_cards]. unfold Spec.no_cards in H0.
      destruct (find_elements d CSS_SELECTOR s0) as [[|c0 cs0]|e];
        try contradiction;
        apply (IH _ i s); try assumption;
        intros k s' Hk Hl; apply (Hbefore (S k)); try lia; exact Hl.
Qed.

(** C6: [extract_job_listings] never raises.  For every driver it returns
    a list: the empty list when no card selector finds a card (each
    lookup raising or finding nothing), and otherwise, for the cards of
    the first selector that finds some, the dictionaries that could be
    extracted, in the order of the cards, a card whose extraction fails
    being left out. *)
Theorem extract_job_listings_never_raises (d : driver) :
  exists jobs : list (gmap string string),
    extract_job_listings d = Ret jobs
    /\ (Forall (Spec.no_cards d) card_selectors -> jobs = [])
    /\ (forall (i : nat) (s : string) (c : card) (cards : list card),
          card_selectors !! i = Some s ->
          find_elements d CSS_SELECTOR s = Ret (c :: cards) ->
          (forall (k : nat) (s' : string),
              (k < i)%nat -> card_selectors !! k = Some s' -> Spec.no_cards d s') ->
          jobs = omap Spec.extracted (c :: cards)).
Proof.
  unfold extract_job_listings, try_except.
  destruct (find_job_cards d card_selectors None) as [[|c0 cs0]|] eqn:E; cbn.
  - exists []. split; [reflexivity|]. split; [reflexivity|].
    intros i s c cards Hi Hf Hb.
    rewrite (find_job_cards_first d _ None i s c cards Hi Hf Hb) in E.
    discriminate E.
  - exists (collect_jobs (c0 :: cs0) []). split; [reflexivity|]. split.
    + intros Hall.
      destruct (find_job_cards_none d _ None Hall (or_introl eq_refl)) as [H|H];
        rewrite H in E; discriminate E.
    + intros i s c cards Hi Hf Hb.
      rewrite (find_job_cards_first d _ None i s c cards Hi Hf Hb) in E.
      injection E as <- <-. rewrite collect_jobs_omap. reflexivity.
  - exists []. split; [reflexivity|]. split; [reflexivity|].
    intros i s c cards Hi Hf Hb.
    rewrite (find_job_cards_first d _ None i s c cards Hi Hf Hb) in E.
    discriminate E.
Qed.

Example extract_job_listings_three_cards :
  exists j1 j2 : gmap string string,
    extract_job_listings Examples.three_cards = Ret [j1; j2]
    /\ j1 = Examples.bare_job /\ j2 !! "title" = Some "Data Engineer".
Proof.
  exists Examples.bare_job, Examples.plain_job.
  split; [vm_compute; reflexivity|]. split; [reflexivity|].
  vm_compute; reflexivity.
Qed.

Example extract_job_listings_empty_page :
  extract_job_listings Examples.empty_page = Ret [].
Proof. reflexivity. Qed.

Example extract_job_listings_broken_page :
  extract_job_listings Examples.broken_page = Ret [].
Proof. reflexivity. Qed.

(** ** [manual_navigate] *)

Lemma first_command_is_command (stdin : list input_event) (c : string) :
  Spec.first_command stdin = Some c -> c = "done" \/ c = "save" \/ c = "quit".
Proof.
  induction stdin as [|[s|] rest IH]; cbn [Spec.first_command]; intros H.
  - discriminate H.
  - destruct (Spec.is_command s) eqn:Hs; [|exact (IH H)].
    injection H as <-. unfold Spec.is_command in Hs.
    apply orb_true_iff in Hs as [Hs|Hs]; [apply orb_true_iff in Hs as [Hs|Hs]|];
      apply String.eqb_eq in Hs; auto.
  - exact (IH H).
Qed.

Lemma first_command_enters (stdin : list input_event) (c : string) :
  Spec.first_command stdin = Some c -> Spec.operator_enters c stdin.
Proof.
  induction stdin as [|[s|] rest IH]; cbn [Spec.first_command]; intros H.
  - discriminate H.
  - destruct (Spec.is_command s) eqn:Hs.
    + injection H as <-. exists [], s, rest. repeat split. constructor.
    + destruct (IH H) as (before & t & later & -> & Hb & Ht).
      exists (Line s :: before), t, later. repeat split; [|exact Ht].
      constructor; [exact Hs | exact Hb].
  - destruct (IH H) as (before & t & later & -> & Hb & Ht).
    exists (Closed :: before), t, later. repeat split; [|exact Ht].
    constructor; [exact I | exact Hb].
Qed.

Lemma enters_first_command (stdin : list input_event) (c : string) :
  Spec.operator_enters c stdin ->
  c = "done" \/ c = "save" \/ c = "quit" ->
  Spec.first_command stdin = Some c.
Proof.
  intros (before & s & later & -> & Hb & Hs) Hc.
  induction Hb as [|ev before Hev Hb IH]; cbn [app Spec.first_command].
  - assert (Hcmd : Spec.is_command s = true).
    { unfold Spec.is_command. rewrite Hs.
      destruct Hc as [-> | [-> | ->]]; reflexivity. }
    rewrite Hcmd, Hs. reflexivity.
  - destruct ev as [t|]; [|exact IH].
    cbn in Hev. rewrite Hev. exact IH.
Qed.

(** What the prompt loop returns is decided by the first command. *)
Lemma prompt_loop_returns (d : driver) (stdin : list input_event) :
  forall (b : bool) (rest : list input_event),
    prompt_loop d stdin = (Returns b, rest) ->
    exists c : string,
      Spec.first_command stdin = Some c /\ b = negb (String.eqb c "quit").
Proof.
  induction stdin as [|[s|] tail IH]; cbn [prompt_loop Spec.first_command];
    intros b rest H; try discriminate H.
  unfold Spec.is_command.
  destruct (String.eqb (command_of s) "done") eqn:Hd.
  { injection H as <- _. exists (command_of s). split; [reflexivity|].
    apply String.eqb_eq in Hd. rewrite Hd. reflexivity. }
  destruct (String.eqb (command_of s) "save") eqn:Hs.
  { injection H as <- _. exists (command_of s). split; [reflexivity|].
    apply String.eqb_eq in Hs. rewrite Hs. reflexivity. }
  destruct (String.eqb (command_of s) "quit") eqn:Hq.
  { injection H as <- _. exists (command_of s). split; [reflexivity|].
    rewrite Hq. reflexivity. }
  cbn. exact (IH b rest H).
Qed.

(** The prompt loop raises only at the end of the input, and no command
    was entered before. *)
Lemma prompt_loop_raises (d : driver) (stdin : list input_event) :
  forall (e : exn) (rest : list input_event),
    prompt_loop d stdin = (Raises e, rest) ->
    e = EOFError /\ Spec.first_command stdin = Spec.first_command rest.
Proof.
  induction stdin as [|[s|] tail IH]; cbn [prompt_loop Spec.first_command];
    intros e rest H; try discriminate H.
  - unfold Spec.is_command.
    destruct (String.eqb (command_of s) "done"); [discriminate H|].
    destruct (String.eqb (command_of s) "save"); [discriminate H|].
    destruct (String.eqb (command_of s) "quit"); [discriminate H|].
    cbn. exact (IH e rest H).
  - injection H as <- <-. split; reflexivity.
Qed.

Lemma first_command_decides (stdin : list input_event) (c : string) (b : bool) :
  Spec.first_command stdin = Some c ->
  b = negb (String.eqb c "quit") ->
  (b = false <-> Spec.operator_enters "quit" stdin)
  /\ (b = true <->
      Spec.operator_enters "done" stdin \/ Spec.operator_enters "save" stdin).
Proof.
  intros Hc ->.
  assert (Hone : forall c' : string,
             c' = "done" \/ c' = "save" \/ c' = "quit" ->
             Spec.operator_enters c' stdin -> c' = c).
  { intros c' Hc' He. apply (enters_first_command _ _ He) in Hc'.
    congruence. }
  pose proof (first_command_enters _ _ Hc) as He.
  destruct (first_command_is_command _ _ Hc) as [-> | [-> | ->]]; cbn; split; split;
    try discriminate; auto.
  - intros Hq. apply Hone in Hq; [discriminate Hq | auto].
  - intros Hq. apply Hone in Hq; [discriminate Hq | auto].
  - intros [H|H]; apply Hone in H; try discriminate H; auto.
Qed.

(** C8: a completed run of [manual_navigate] returns [False] only when no
    automatic success was possible and the operator's first command at
    the prompt, trimmed and lowercased, is ['quit']; it returns [True] in
    every other completed run, that is on automatic success (job cards
    visible, no challenge, no cookie dialog) or when the first command is
    ['done'] or ['save'].  The prompt of the exception handler behaves as
    the prompt of the normal path. *)
Theorem manual_navigate_false_only_on_quit
    (d : driver) (url : string) (stdin : list input_event) (b : bool) :
  manual_navigate d url stdin = Returns b ->
  (b = false <-> automatic d = false /\ Spec.operator_enters "quit" stdin)
  /\ (b = true <->
      automatic d = true
      \/ Spec.operator_enters "done" stdin \/ Spec.operator_enters "save" stdin).
Proof.
  unfold manual_navigate, automatic.
  destruct (get d url) as [[]|e]; [|discriminate].
  assert (Hprompt : forall c : string,
             Spec.first_command stdin = Some c ->
             b = negb (String.eqb c "quit") ->
             (b = false <-> false = false /\ Spec.operator_enters "quit" stdin)
             /\ (b = true <->
                 false = true
                 \/ Spec.operator_enters "done" stdin
                 \/ Spec.operator_enters "save" stdin)).
  { intros c Hc Hb. destruct (first_command_decides _ _ _ Hc Hb) as [Hf Ht].
    split; [rewrite Hf | rewrite Ht]; intuition discriminate. }
  destruct (challenge_found d cloudflare_elements) as [challenge|e].
  - destruct (job_cards_found d card_selectors && negb challenge
              && negb (cookie_dialog_found d)) eqn:Hauto.
    + intros H. injection H as <-.
      split; [split; [discriminate | intros [H _]; discriminate H] | split; auto].
    + destruct (prompt_loop d stdin) as [[b'| e |] rest] eqn:E; intros H;
        try discriminate H.
      * injection H as ->.
        destruct (prompt_loop_returns _ _ _ _ E) as (c & Hc & Hb).
        exact (Hprompt c Hc Hb).
      * destruct (prompt_loop_raises _ _ _ _ E) as [_ Hsame].
        destruct (prompt_loop d rest) as [o rest'] eqn:E'. cbn in H. subst o.
        destruct (prompt_loop_returns _ _ _ _ E') as (c & Hc & Hb).
        rewrite <- Hsame in Hc. exact (Hprompt c Hc Hb).
  - intros H. destruct (prompt_loop d stdin) as [o rest] eqn:E. cbn in H. subst o.
    destruct (prompt_loop_returns _ _ _ _ E) as (c & Hc & Hb).
    exact (Hprompt c Hc Hb).
Qed.

Lemma manual_navigate_false_only_on_quit_witness :
  manual_navigate Examples.empty_page "https://de.indeed.com/jobs?q=x"
    [Line "  "; Line " QUIT "; Line "done"] = Returns false
  /\ automatic Examples.empty_page = false
  /\ Spec.operator_enters "quit" [Line "  "; Line " QUIT "; Line "done"].
Proof.
  assert (H : manual_navigate Examples.empty_page "https://de.indeed.com/jobs?q=x"
                [Line "  "; Line " QUIT "; Line "done"] = Returns false)
    by reflexivity.
  split; [exact H|].
  apply (manual_navigate_false_only_on_quit _ _ _ _ H). reflexivity.
Defined.

Example manual_navigate_fallback_prompt :
  manual_navigate Examples.broken_page "https://de.indeed.com/jobs?q=x"
    [Line "Save"] = Returns true
  /\ manual_navigate Examples.broken_page "https://de.indeed.com/jobs?q=x"
       [Line "quit "] = Returns false
  /\ manual_navigate Examples.empty_page "https://de.indeed.com/jobs?q=x"
       [Closed; Line "done"] = Returns true
  /\ manual_navigate Examples.broken_page "https://de.indeed.com/jobs?q=x"
       [Closed; Line "done"] = Raises EOFError.
Proof. repeat split. Qed.

(** ** [save_to_csv] and [save_to_json] *)

(** C9: for the empty list, [save_to_csv] and [save_to_json] return
    [None]; they print one line and leave the file system as it was, so no
    file and no directory is created.  A call that changes the file
    system was given a list that is not empty. *)
Theorem save_empty_data_writes_nothing
    (csv_text json_text : list (gmap string string) -> string)
    (timestamp : string) (open_error : gmap string node -> string -> option exn)
    (filename : option string) (w : world) :
  save_to_csv csv_text timestamp open_error [] filename w
    = (Ret None, print "No data to save to CSV." w)
  /\ save_to_json json_text timestamp open_error [] filename w
     = (Ret None, print "No data to save to JSON." w)
  /\ files (snd (save_to_csv csv_text timestamp open_error [] filename w))
     = files w
  /\ files (snd (save_to_json json_text timestamp open_error [] filename w))
     = files w
  /\ (forall data : list (gmap string string),
        files (snd (save_to_csv csv_text timestamp open_error data filename w))
          <> files w -> data <> [])
  /\ (forall data : list (gmap string string),
        files (snd (save_to_json json_text timestamp open_error data filename w))
          <> files w -> data <> []).
Proof.
  repeat split; intros data H ->; apply H; reflexivity.
Qed.

(** ** More on strings *)

Lemma contains_char (c : ascii) (s : string) :
  Str.contains (String c EmptyString) s = true <-> c ∈ Str.chars s.
Proof.
  induction s as [|a s IH].
  - cbn. split; [discriminate | intros H; inversion H].
  - change (Str.chars (String a s)) with (a :: Str.chars s).
    change (Str.contains (String c EmptyString) (String a s))
      with (Ascii.eqb c a && true || Str.contains (String c EmptyString) s).
    rewrite andb_true_r, orb_true_iff, IH, elem_of_cons.
    split; (intros [H|H]; [left | right; exact H]).
    + now apply Ascii.eqb_eq in H.
    + now apply Ascii.eqb_eq.
Qed.

Lemma not_contains_char (c : ascii) (s : string) :
  Str.contains (String c EmptyString) s = false <-> c ∉ Str.chars s.
Proof.
  rewrite <- contains_char. destruct (Str.contains _ s); split; congruence.
Qed.

Lemma before_first_app (c : ascii) (v t : string) :
  c ∉ Str.chars v ->
  Spec.before_first (String c EmptyString) (v +:+ String c t) = v.
Proof.
  induction v as [|a v IH]; intros Hv.
  - rewrite append_nil. cbn. now rewrite Ascii.eqb_refl.
  - change (Str.chars (String a v)) with (a :: Str.chars v) in Hv.
    apply not_elem_of_cons in Hv as [Hca Hv].
    rewrite append_cons, before_first_cons.
    change (Str.prefix_of (String c EmptyString) (String a (v +:+ String c t)))
      with (Ascii.eqb c a && true).
    rewrite andb_true_r. destruct (Ascii.eqb_spec c a) as [E|_]; [contradiction|].
    now rewrite IH.
Qed.

Lemma before_first_chars (sub s : string) (c : ascii) :
  c ∈ Str.chars (Spec.before_first sub s) -> c ∈ Str.chars s.
Proof.
  induction s as [|a s IH]; rewrite ?before_first_cons.
  - cbn. destruct (Str.prefix_of sub EmptyString); intros H; inversion H.
  - destruct (Str.prefix_of sub (String a s)).
    + intros H; inversion H.
    + change (Str.chars (String a (Spec.before_first sub s)))
        with (a :: Str.chars (Spec.before_first sub s)).
      change (Str.chars (String a s)) with (a :: Str.chars s).
      rewrite !elem_of_cons. intros [H|H]; [now left | right; exact (IH H)].
Qed.

Lemma before_first_stops (c : ascii) (s : string) :
  c ∉ Str.chars (Spec.before_first (String c EmptyString) s).
Proof.
  induction s as [|a s IH].
  - cbn. intros H; inversion H.
  - rewrite before_first_cons.
    change (Str.prefix_of (String c EmptyString) (String a s))
      with (Ascii.eqb c a && true).
    rewrite andb_true_r. destruct (Ascii.eqb_spec c a) as [E|Hca].
    + intros H; inversion H.
    + change (Str.chars (String a (Spec.before_first (String c EmptyString) s)))
        with (a :: Str.chars (Spec.before_first (String c EmptyString) s)).
      apply not_elem_of_cons. split; [exact Hca | exact IH].
Qed.

Lemma lstrip_chars (s : string) (c : ascii) :
  c ∈ Str.chars (Str.lstrip s) -> c ∈ Str.chars s.
Proof.
  induction s as [|a s IH]; cbn [Str.lstrip]; [auto|].
  destruct (Str.isspace a); [|auto].
  intros H. change (Str.chars (String a s)) with (a :: Str.chars s).
  apply elem_of_cons. right. exact (IH H).
Qed.

Lemma rstrip_chars (s : string) (c : ascii) :
  c ∈ Str.chars (Str.rstrip s) -> c ∈ Str.chars s.
Proof.
  induction s as [|a s IH]; cbn [Str.rstrip]; [auto|].
  change (Str.chars (String a s)) with (a :: Str.chars s).
  destruct (Str.rstrip s) as [|b r].
  - destruct (Str.isspace a); intros H; [inversion H|].
    apply elem_of_cons. left.
    change (c ∈ [a]) in H. apply list_elem_of_singleton in H. exact H.
  - change (Str.chars (String a (String b r))) with (a :: Str.chars (String b r)).
    rewrite !elem_of_cons. intros [H|H]; [now left | right; exact (IH H)].
Qed.

Lemma strip_chars (s : string) (c : ascii) :
  c ∈ Str.chars (Str.strip s) -> c ∈ Str.chars s.
Proof. intros H. apply lstrip_chars, rstrip_chars. exact H. Qed.

(** What is left of white space at the two ends. *)
Lemma lstrip_head (s : string) :
  match Str.lstrip s with
  | EmptyString => True
  | String a _ => Str.isspace a = false
  end.
Proof.
  induction s as [|a s IH]; cbn [Str.lstrip]; [exact I|].
  destruct (Str.isspace a) eqn:E; [exact IH | exact E].
Qed.

Lemma lstrip_fixed (s : string) :
  match s with
  | EmptyString => True
  | String a _ => Str.isspace a = false
  end ->
  Str.lstrip s = s.
Proof. destruct s as [|a s]; cbn [Str.lstrip]; [reflexivity|]. now intros ->. Qed.

Lemma rstrip_head (a : ascii) (s : string) :
  Str.isspace a = false ->
  exists r : string, Str.rstrip (String a s) = String a r.
Proof.
  intros Ha. cbn [Str.rstrip]. destruct (Str.rstrip s) as [|b r].
  - rewrite Ha. now exists EmptyString.
  - now exists (String b r).
Qed.

Lemma rstrip_idempotent (s : string) : Str.rstrip (Str.rstrip s) = Str.rstrip s.
Proof.
  induction s as [|a s IH]; [reflexivity|].
  cbn [Str.rstrip]. destruct (Str.rstrip s) as [|b r] eqn:E.
  - destruct (Str.isspace a) eqn:Ha; [reflexivity|].
    cbn [Str.rstrip]. now rewrite Ha.
  - change (Str.rstrip (String a (String b r)))
      with (match Str.rstrip (String b r) with
            | EmptyString =>
                if Str.isspace a then EmptyString else String a EmptyString
            | String x y => String a (String x y)
            end).
    now rewrite IH.
Qed.

Lemma strip_idempotent (s : string) : Str.strip (Str.strip s) = Str.strip s.
Proof.
  unfold Str.strip. pose proof (lstrip_head s) as H.
  destruct (Str.lstrip s) as [|a t]; [reflexivity|].
  destruct (rstrip_head a t H) as [r Hr].
  rewrite (lstrip_fixed (Str.rstrip (String a t))) by (now rewrite Hr).
  apply rstrip_idempotent.
Qed.

(** ** [clean_value] and [get_config] *)

Lemma clean_value_ret (value : string) :
  clean_value value
  = Ret (if Str.contains "#" value
         then Str.strip (Spec.before_first "#" value) else value).
Proof.
  unfold clean_value. destruct value as [|a s]; [reflexivity|].
  change (negb (String a s =? "")%string) with true. cbn [negb].
  destruct (Str.contains "#" (String a s)); [|reflexivity].
  rewrite split_head by discriminate. reflexivity.
Qed.

Lemma clean_value_plain (value : string) :
  Str.contains "#" value = false -> clean_value value = Ret value.
Proof. intros H. now rewrite clean_value_ret, H. Qed.

Lemma clean_value_comment (value comment : string) :
  Str.contains "#" value = false ->
  clean_value (value +:+ "#" +:+ comment) = Ret (Str.strip value).
Proof.
  intros H. rewrite clean_value_ret.
  assert (Hv : "#"%char ∉ Str.chars value) by now apply not_contains_char.
  assert (Hc : Str.contains "#" (value +:+ "#" +:+ comment) = true).
  { apply contains_char. rewrite chars_app. apply elem_of_app. right.
    change (Str.chars ("#" +:+ comment)) with ("#"%char :: Str.chars comment).
    apply elem_of_cons. now left. }
  rewrite Hc. change ("#" +:+ comment) with (String "#" comment).
  now rewrite before_first_app.
Qed.

Lemma strip_no_hash (value : string) :
  Str.contains "#" value = false -> Str.contains "#" (Str.strip value) = false.
Proof.
  rewrite !not_contains_char. intros H Hc. apply H, strip_chars, Hc.
Qed.

Lemma number_ret (int : string -> option Z) (text : string) :
  number int text
  = match int (Spec.cleaned text) with
    | Some n => Ret n
    | None => Raise ValueError
    end.
Proof. unfold number. rewrite clean_value_ret. reflexivity. Qed.

Lemma flag_ret (text : string) :
  flag text = Ret (String.eqb (Str.lower (Spec.cleaned text)) "true").
Proof. unfold flag. rewrite clean_value_ret. reflexivity. Qed.

Lemma cleaned_comment (value comment : string) :
  Str.contains "#" value = false ->
  Spec.cleaned (value +:+ "#" +:+ comment) = Spec.cleaned (Str.strip value).
Proof.
  intros H.
  assert (H1 := clean_value_comment value comment H).
  assert (H2 := clean_value_plain _ (strip_no_hash _ H)).
  rewrite clean_value_ret in H1, H2. unfold Spec.cleaned.
  injection H1 as H1. injection H2 as H2. congruence.
Qed.

Lemma getenv_insert (env : gmap string string) (key key' value default : string) :
  getenv (<[key := value]> env) key' default
  = if decide (key = key') then value else getenv env key' default.
Proof.
  unfold getenv. destruct (decide (key = key')) as [->|Hne].
  - now rewrite lookup_insert_eq.
  - now rewrite lookup_insert_ne.
Qed.

(** X1: [clean_value] drops a comment: of a text that holds a ['#'] it
    keeps what stands before the first ['#'], without the white space
    around it; a text without ['#'] is returned as it is, white space
    included. *)
Theorem clean_value_drops_comment (value comment : string) :
  Str.contains "#" value = false ->
  clean_value (value +:+ "#" +:+ comment) = Ret (Str.strip value)
  /\ clean_value value = Ret value.
Proof.
  intros H. split; [now apply clean_value_comment | now apply clean_value_plain].
Qed.

Lemma clean_value_drops_comment_witness :
  clean_value (" 30 " +:+ "#" +:+ " km # radius") = Ret "30"
  /\ clean_value " 30 " = Ret " 30 ".
Proof. exact (clean_value_drops_comment " 30 " " km # radius" eq_refl). Defined.

(** X2: [clean_value] never raises, what it returns holds no ['#'], and
    cleaning that again changes nothing. *)
Theorem clean_value_idempotent (value : string) :
  exists cleaned : string,
    clean_value value = Ret cleaned
    /\ Str.contains "#" cleaned = false
    /\ clean_value cleaned = Ret cleaned.
Proof.
  rewrite clean_value_ret.
  assert (H : Str.contains "#"
                (if Str.contains "#" value
                 then Str.strip (Spec.before_first "#" value) else value)
              = false).
  { destruct (Str.contains "#" value) eqn:E; [|exact E].
    apply not_contains_char. intros Hc.
    apply strip_chars in Hc. exact (before_first_stops _ _ Hc). }
  eexists. split; [reflexivity|]. split; [exact H|].
  now apply clean_value_plain.
Qed.

(** X3: a comment after the value of one of the seven variables that
    [get_config] cleans (RADIUS, RESULTS_PER_PAGE, MAX_PAGES, OUTPUT_CSV,
    OUTPUT_JSON, HEADLESS, TIMEOUT) changes nothing: the configuration,
    or the exception, is the one of the value alone, stripped. *)
Theorem get_config_ignores_comments
    (int : string -> option Z) (env : gmap string string)
    (key value comment : string) :
  key ∈ Spec.cleaned_keys ->
  Str.contains "#" value = false ->
  get_config int (<[key := value +:+ "#" +:+ comment]> env)
  = get_config int (<[key := Str.strip value]> env).
Proof.
  intros Hkey Hv.
  assert (Hc := cleaned_comment value comment Hv).
  unfold get_config. rewrite !number_ret, !flag_ret, !getenv_insert.
  unfold Spec.cleaned_keys in Hkey.
  repeat (apply elem_of_cons in Hkey as [->|Hkey]);
    [ .. | inversion Hkey];
    repeat (case_decide; try discriminate);
    rewrite ?Hc; reflexivity.
Qed.

Lemma get_config_ignores_comments_witness :
  "RADIUS" ∈ Spec.cleaned_keys
  /\ get_config Examples.decimal (<["RADIUS" := "30 " +:+ "#" +:+ " km"]> ∅)
     = get_config Examples.decimal (<["RADIUS" := "30"]> ∅)
  /\ Config.radius <$> get_config Examples.decimal (<["RADIUS" := "30"]> ∅)
     = Ret 30%Z.
Proof.
  assert (Hk : "RADIUS" ∈ Spec.cleaned_keys)
    by (apply (bool_decide_unpack _); vm_compute; exact I).
  split; [exact Hk|]. split; [|vm_compute; reflexivity].
  exact (get_config_ignores_comments Examples.decimal ∅ "RADIUS" "30 " " km"
           Hk eq_refl).
Defined.

(** X4: [get_config] raises nothing but [ValueError], and it returns a
    configuration exactly when [int] accepts the cleaned text of each of
    the four numeric variables, the default text standing for a variable
    that is not set.  The job title and the location are then the texts
    of the environment as they are, a comment included. *)
Theorem get_config_raises_only_value_error
    (int : string -> option Z) (env : gmap string string) :
  (forall e : exn, get_config int env = Raise e -> e = ValueError)
  /\ ((exists config : Config.t, get_config int env = Ret config)
      <-> Forall (fun setting : string * string =>
                    is_Some (int (Spec.cleaned
                                    (getenv env (fst setting) (snd setting)))))
            Spec.numeric_settings)
  /\ (forall config : Config.t,
        get_config int env = Ret config ->
        Config.job_title config = getenv env "JOB_TITLE" "software engineer"
        /\ Config.location config = getenv env "LOCATION" "Berlin").
Proof.
  unfold get_config, Spec.numeric_settings.
  rewrite !number_ret, !flag_ret, !Forall_cons, Forall_nil. cbn [fst snd].
  destruct (int (Spec.cleaned (getenv env "RADIUS" "25"))) as [r|];
    [destruct (int (Spec.cleaned (getenv env "RESULTS_PER_PAGE" "15"))) as [p|];
     [destruct (int (Spec.cleaned (getenv env "MAX_PAGES" "5"))) as [m|];
      [destruct (int (Spec.cleaned (getenv env "TIMEOUT" "10"))) as [t|]|]|]|];
    cbn.
  all: split; [intros e H; now inversion H|].
  all: split; [|intros config H; now inversion H].
  - split; [intros _; repeat split; eauto | intros _; eauto].
  - split; [intros [c H]; discriminate H | intros (_ & _ & _ & H & _); now destruct H].
  - split; [intros [c H]; discriminate H | intros (_ & _ & H & _); now destruct H].
  - split; [intros [c H]; discriminate H | intros (_ & H & _); now destruct H].
  - split; [intros [c H]; discriminate H | intros (H & _); now destruct H].
Qed.

(** ** Paging *)

Lemma find_next_button_some (b : browser) (selectors : list string) (x : button) :
  find_next_button b selectors = Ret (Some x)
  <-> Spec.first_button b selectors x.
Proof.
  induction selectors as [|s rest IH]; cbn [find_next_button].
  - split; [discriminate | intros (i & s & Hi & _); discriminate Hi].
  - destruct (find_button b s) as [y| |] eqn:E; cbn.
    + split.
      * intros H. injection H as ->. exists 0%nat, s.
        repeat split; [exact E|]. intros j s' Hj. lia.
      * intros (i & s0 & Hi & Hf & Hb). destruct i as [|i].
        -- injection Hi as <-. congruence.
        -- specialize (Hb 0%nat s (Nat.lt_0_succ i) eq_refl). congruence.
    + rewrite IH. split.
      * intros (i & s0 & Hi & Hf & Hb). exists (S i), s0.
        repeat split; [exact Hi | exact Hf|].
        intros [|j] s' Hj Hl; [injection Hl as <-; exact E|].
        apply (Hb j s'); [lia | exact Hl].
      * intros (i & s0 & Hi & Hf & Hb). destruct i as [|i].
        -- injection Hi as <-. congruence.
        -- exists i, s0. repeat split; [exact Hi | exact Hf|].
           intros j s' Hj Hl. apply (Hb (S j) s'); [lia | exact Hl].
    + split; [discriminate|].
      intros (i & s0 & Hi & Hf & Hb). destruct i as [|i].
      * injection Hi as <-. congruence.
      * specialize (Hb 0%nat s (Nat.lt_0_succ i) eq_refl). congruence.
Qed.

Lemma find_next_button_none (b : browser) (selectors : list string) :
  find_next_button b selectors = Ret None
  <-> Forall (fun s => find_button b s = NoSuchElement) selectors.
Proof.
  induction selectors as [|s rest IH]; cbn [find_next_button].
  - split; [constructor | reflexivity].
  - rewrite Forall_cons. destruct (find_button b s) as [y| |] eqn:E; cbn.
    + split; [discriminate | intros [H _]; discriminate H].
    + rewrite IH. tauto.
    + split; [discriminate | intros [H _]; discriminate H].
Qed.

Lemma next_page_loop_find (b : browser) (selectors : list string) :
  next_page_loop b selectors
  = match find_next_button b selectors with
    | Ret (Some _) => Ret true
    | Ret None => Ret false
    | Raise e => Raise e
    end.
Proof.
  induction selectors as [|s rest IH]; cbn [next_page_loop find_next_button];
    [reflexivity|].
  destruct (of_lookup (find_button b s)) as [x|e]; [reflexivity|].
  destruct (is_no_such_element e); [exact IH | reflexivity].
Qed.

Lemma has_next_page_find (b : browser) :
  has_next_page b = true
  <-> exists x : button, find_next_button b next_selectors = Ret (Some x).
Proof.
  unfold has_next_page. rewrite next_page_loop_find.
  destruct (find_next_button b next_selectors) as [[x|]|e].
  - split; [eauto | reflexivity].
  - split; [discriminate | intros [x H]; discriminate H].
  - split; [discriminate | intros [x H]; discriminate H].
Qed.

(** X5: [has_next_page] is [True] exactly when one of the four selectors
    finds a button and every selector before it raises
    [NoSuchElementException]; another exception at an earlier selector
    gives [False], whatever the later selectors would find. *)
Theorem has_next_page_first_answer (b : browser) :
  (has_next_page b = true
   <-> exists x : button, Spec.first_button b next_selectors x)
  /\ (forall (i : nat) (s : string),
        next_selectors !! i = Some s ->
        find_button b s = DriverError ->
        (forall (j : nat) (s' : string),
            (j < i)%nat -> next_selectors !! j = Some s' ->
            find_button b s' = NoSuchElement) ->
        has_next_page b = false).
Proof.
  split.
  - rewrite has_next_page_find. split; intros [x H]; exists x;
      now apply find_next_button_some.
  - intros i s Hi Hf Hb.
    destruct (has_next_page b) eqn:E; [|reflexivity].
    apply has_next_page_find in E as [x E].
    apply find_next_button_some in E as (i' & s0 & Hi' & Hf' & Hb').
    destruct (Nat.lt_trichotomy i i') as [Hlt|[->|Hgt]].
    + specialize (Hb' i s Hlt Hi). congruence.
    + congruence.
    + specialize (Hb i' s0 Hgt Hi'). congruence.
Qed.

Lemma click_first_accepts (buttons : list button) :
  click_first buttons = existsb Spec.accepts buttons.
Proof.
  induction buttons as [|x rest IH]; [reflexivity|].
  cbn [click_first existsb]. unfold Spec.accepts at 1.
  destruct (scroll_into_view x); [|exact IH].
  destruct (click x); [reflexivity|].
  destruct (script_click x); [reflexivity | exact IH].
Qed.

Lemma accept_cookies_false (b : browser) (locators : list (By * string)) :
  accept_cookies b locators = false
  <-> forall (by_ : By) (value : string) (found : list button) (x : button),
        (by_, value) ∈ locators -> find_buttons b by_ value = Ret found ->
        x ∈ found -> Spec.accepts x = false.
Proof.
  induction locators as [|[t v] rest IH]; cbn [accept_cookies].
  - split; [intros _ by_ value found x H; inversion H | reflexivity].
  - destruct (find_buttons b t v) as [l|e] eqn:E.
    + rewrite click_first_accepts.
      destruct (existsb Spec.accepts l) eqn:Hl.
      * split; [discriminate|]. intros H.
        apply existsb_exists in Hl as (x & Hx & Hacc).
        rewrite (H t v l x) in Hacc; [discriminate Hacc | | exact E |].
        -- apply elem_of_cons. now left.
        -- now apply list_elem_of_In.
      * rewrite IH. split.
        -- intros H by_ value found x Hin Hf Hx.
           apply elem_of_cons in Hin as [Heq|Hin]; [|exact (H _ _ _ _ Hin Hf Hx)].
           injection Heq as -> ->. rewrite E in Hf. injection Hf as <-.
           destruct (Spec.accepts x) eqn:Hacc; [|reflexivity].
           assert (Hex : existsb Spec.accepts l = true).
           { apply existsb_exists. exists x. split; [|exact Hacc].
             now apply list_elem_of_In. }
           congruence.
        -- intros H by_ value found x Hin. apply H, elem_of_cons. now right.
    + rewrite IH. split.
      * intros H by_ value found x Hin Hf Hx.
        apply elem_of_cons in Hin as [Heq|Hin]; [|exact (H _ _ _ _ Hin Hf Hx)].
        injection Heq as -> ->. congruence.
      * intros H by_ value found x Hin. apply H, elem_of_cons. now right.
Qed.

(** X6: [_handle_cookie_consent] never raises, and it returns [False]
    exactly when none of the buttons its thirteen locators find could be
    clicked (scrolling to it fails, or both the click and the script
    fail) and an overlay is on the page; a lookup that raises counts as
    finding nothing. *)
Theorem handle_cookie_consent_false (b : browser) :
  _handle_cookie_consent b = false
  <-> (forall (by_ : By) (value : string) (found : list button) (x : button),
          (by_, value) ∈ cookie_buttons ->
          find_buttons b by_ value = Ret found ->
          x ∈ found -> Spec.accepts x = false)
      /\ cookie_dialog_found (page b) = true.
Proof.
  unfold _handle_cookie_consent, cookie_dialog_found.
  rewrite <- accept_cookies_false.
  destruct (accept_cookies b cookie_buttons).
  - split; [discriminate | intros [H _]; discriminate H].
  - destruct (find_elements (page b) CSS_SELECTOR _) as [overlays|e].
    + destruct (truthy overlays); split; auto; try discriminate.
      intros [_ H]; discriminate H.
    + split; [discriminate | intros [_ H]; discriminate H].
Qed.

Lemma next_page_attempt_some (b : browser) (r : bool) :
  next_page_attempt b = Ret (Some r) ->
  (r = false
   /\ Forall (fun s => find_button b s = NoSuchElement) next_selectors)
  \/ (r = true
      /\ (exists x : button,
             Spec.first_button b next_selectors x
             /\ scroll_into_view x = Ret tt /\ press x = Ret tt)
      /\ job_cards_found (page b) card_selectors = true).
Proof.
  unfold next_page_attempt.
  remember (job_cards_found (page b) card_selectors) as found eqn:Hc.
  remember (_handle_cookie_consent b) as handled eqn:Hh.
  destruct (find_next_button b next_selectors) as [[x|]|e] eqn:E; cbn;
    [| |discriminate].
  - destruct (scroll_into_view x) as [[]|e] eqn:Hs; cbn; [|discriminate].
    destruct (press x) as [[]|e] eqn:Hp; cbn; [|discriminate].
    destruct found; cbn; [|discriminate].
    intros H. injection H as <-. right. split; [reflexivity|].
    split; [|reflexivity]. exists x. split; [|split; assumption].
    now apply find_next_button_some.
  - intros H. injection H as <-. left. split; [reflexivity|].
    now apply find_next_button_none.
Qed.

Lemma ask_done_returns (stdin rest : list input_event) (r : bool) :
  ask_done stdin = (Returns r, rest) ->
  exists s : string,
    stdin = Line s :: rest /\ r = String.eqb (command_of s) "done".
Proof.
  destruct stdin as [|[s|] tail]; cbn; intros H; try discriminate H.
  injection H as <- <-. now exists s.
Qed.

Lemma ask_done_raises (stdin rest : list input_event) (e : exn) :
  ask_done stdin = (Raises e, rest) -> e = EOFError /\ stdin = Closed :: rest.
Proof.
  destruct stdin as [|[s|] tail]; cbn; intros H; try discriminate H.
  injection H as <- <-. now split.
Qed.

(** X7: a call of [go_to_next_page] that returns did one of three
    things.  It found no next button, every selector raising
    [NoSuchElementException], and returned [False] without asking; or it
    found the button, scrolled to it, clicked it (directly or with the
    script), saw job cards and returned [True] without asking; or it
    asked the operator once and returned whether the answer, trimmed and
    lowercased, is ['done']: any other answer, an empty line included,
    gives [False]. *)
Theorem go_to_next_page_returns
    (b : browser) (stdin rest : list input_event) (r : bool) :
  go_to_next_page b stdin = (Returns r, rest) ->
  (rest = stdin /\ r = false
   /\ Forall (fun s => find_button b s = NoSuchElement) next_selectors)
  \/ (rest = stdin /\ r = true
      /\ (exists x : button,
             Spec.first_button b next_selectors x
             /\ scroll_into_view x = Ret tt /\ press x = Ret tt)
      /\ job_cards_found (page b) card_selectors = true)
  \/ (exists s : string,
         Spec.answer stdin rest s /\ r = String.eqb (command_of s) "done").
Proof.
  unfold go_to_next_page.
  destruct (next_page_attempt b) as [[r'|]|e] eqn:A.
  - intros H. injection H as -> ->.
    destruct (next_page_attempt_some _ _ A) as [[-> H]|(-> & H1 & H2)].
    + left. auto.
    + right. left. auto.
  - destruct (ask_done stdin) as [[r'|e|] rest'] eqn:Q; intros H;
      try discriminate H.
    + injection H as -> ->. right. right.
      destruct (ask_done_returns _ _ _ Q) as (s & -> & ->).
      exists s. split; [now left | reflexivity].
    + destruct (ask_done_raises _ _ _ Q) as [_ ->].
      right. right. destruct (ask_done_returns _ _ _ H) as (s & -> & ->).
      exists s. split; [now right | reflexivity].
  - intros H. right. right.
    destruct (ask_done_returns _ _ _ H) as (s & -> & ->).
    exists s. split; [now left | reflexivity].
Qed.

Lemma go_to_next_page_returns_witness :
  go_to_next_page Examples.stuck_page [Closed; Line " Done"; Line "quit"]
    = (Returns true, [Line "quit"])
  /\ go_to_next_page Examples.middle_page [Line "quit"]
     = (Returns true, [Line "quit"])
  /\ exists s : string,
       Spec.answer [Closed; Line " Done"; Line "quit"] [Line "quit"] s
       /\ true = String.eqb (command_of s) "done".
Proof.
  assert (H : go_to_next_page Examples.stuck_page
                [Closed; Line " Done"; Line "quit"]
              = (Returns true, [Line "quit"])) by (vm_compute; reflexivity).
  split; [exact H|]. split; [vm_compute; reflexivity|].
  destruct (go_to_next_page_returns _ _ _ _ H)
    as [(Hr & _)|[(Hr & _)|Hs]]; [discriminate Hr | discriminate Hr | exact Hs].
Defined.

(** X8: [go_to_next_page] raises nothing but [EOFError], and only when
    the input is closed at a prompt: at the one prompt of the handler
    when the [try] block raised, at both prompts otherwise.  No
    exception of the driver reaches the caller. *)
Theorem go_to_next_page_raises
    (b : browser) (stdin rest : list input_event) (e : exn) :
  go_to_next_page b stdin = (Raises e, rest) ->
  e = EOFError
  /\ (stdin = Closed :: rest \/ stdin = Closed :: Closed :: rest).
Proof.
  unfold go_to_next_page.
  destruct (next_page_attempt b) as [[r'|]|e'] eqn:A; [discriminate| |].
  - destruct (ask_done stdin) as [[r'|e'|] rest'] eqn:Q; intros H;
      try discriminate H.
    destruct (ask_done_raises _ _ _ Q) as [_ ->].
    destruct (ask_done_raises _ _ _ H) as [-> ->]. auto.
  - intros H. destruct (ask_done_raises _ _ _ H) as [-> ->]. auto.
Qed.

Lemma go_to_next_page_raises_witness :
  go_to_next_page Examples.stuck_page [Closed; Closed; Line "done"]
    = (Raises EOFError, [Line "done"])
  /\ EOFError = EOFError
  /\ ([Closed; Closed; Line "done"] = [Closed; Line "done"]
      \/ [Closed; Closed; Line "done"] = [Closed; Closed; Line "done"]).
Proof.
  assert (H : go_to_next_page Examples.stuck_page [Closed; Closed; Line "done"]
              = (Raises EOFError, [Line "done"])) by (vm_compute; reflexivity).
  split; [exact H|]. exact (go_to_next_page_raises _ _ _ _ H).
Defined.

(** X9: what the cookie buttons do has no influence on
    [go_to_next_page]: with other answers to the lookups of
    [_handle_cookie_consent], the call returns the same and reads the
    same input.  The test on [cookie_handled] comes after the job cards
    were not found, where it decides nothing, and the last [return True]
    of the [try] block is never reached. *)
Theorem go_to_next_page_ignores_cookie_buttons
    (b : browser) (find_buttons' : By -> string -> result (list button))
    (stdin : list input_event) :
  go_to_next_page (Browser (page b) (find_button b) find_buttons') stdin
  = go_to_next_page b stdin.
Proof.
  assert (Hf : forall l,
             find_next_button (Browser (page b) (find_button b) find_buttons') l
             = find_next_button b l).
  { induction l as [|s rest IH]; [reflexivity|].
    cbn [find_next_button find_button]. now rewrite IH. }
  unfold go_to_next_page, next_page_attempt. rewrite Hf. cbn [page].
  generalize (_handle_cookie_consent (Browser (page b) (find_button b) find_buttons'))
             (_handle_cookie_consent b).
  intros handled' handled.
  remember (job_cards_found (page b) card_selectors) as found eqn:Hc.
  destruct (find_next_button b next_selectors) as [[x|]|e]; cbn; try reflexivity.
  destruct (scroll_into_view x); cbn; [|reflexivity].
  destruct (press x); cbn; [|reflexivity].
  destruct found; reflexivity.
Qed.

(** X10: when [has_next_page] says yes, [go_to_next_page] on the same
    answers of the browser does find the button, so it returns [False]
    only on the word of the operator: an answer at its prompt that is
    not ['done']. *)
Theorem has_next_page_then_go
    (b : browser) (stdin rest : list input_event) :
  has_next_page b = true ->
  go_to_next_page b stdin = (Returns false, rest) ->
  exists s : string, Spec.answer stdin rest s /\ command_of s <> "done".
Proof.
  intros Hn H. apply has_next_page_find in Hn as [x Hx].
  unfold go_to_next_page in H.
  assert (Hs : forall s, false = String.eqb (command_of s) "done" ->
                         command_of s <> "done").
  { intros s E Hd. rewrite Hd in E. discriminate E. }
  destruct (next_page_attempt b) as [[r'|]|e] eqn:A.
  - injection H as -> ->.
    destruct (next_page_attempt_some _ _ A) as [[_ Hall]|(Hr & _)];
      [|discriminate Hr].
    apply find_next_button_none in Hall. congruence.
  - destruct (ask_done stdin) as [[r'|e|] rest'] eqn:Q; try discriminate H.
    + injection H as -> ->.
      destruct (ask_done_returns _ _ _ Q) as (s & -> & Hr).
      exists s. split; [now left | auto].
    + destruct (ask_done_raises _ _ _ Q) as [_ ->].
      destruct (ask_done_returns _ _ _ H) as (s & -> & Hr).
      exists s. split; [now right | auto].
  - destruct (ask_done_returns _ _ _ H) as (s & -> & Hr).
    exists s. split; [now left | auto].
Qed.

Lemma has_next_page_then_go_witness :
  has_next_page Examples.stuck_page = true
  /\ go_to_next_page Examples.stuck_page [Line ""; Line "done"]
     = (Returns false, [Line "done"])
  /\ exists s : string,
       Spec.answer [Line ""; Line "done"] [Line "done"] s
       /\ command_of s <> "done".
Proof.
  assert (Hn : has_next_page Examples.stuck_page = true) by reflexivity.
  assert (H : go_to_next_page Examples.stuck_page [Line ""; Line "done"]
              = (Returns false, [Line "done"])) by (vm_compute; reflexivity).
  split; [exact Hn|]. split; [exact H|].
  exact (has_next_page_then_go _ _ _ Hn H).
Defined.

(** ** [main] *)

Lemma page_loop_returns (visits : nat -> Main.visit) (remaining : nat) :
  forall (current_page : nat) (all_jobs : list (gmap string string))
         (stdin rest : list input_event) (jobs : list (gmap string string)),
    Main.page_loop remaining visits current_page all_jobs stdin
    = (Returns jobs, rest) ->
    exists k : nat,
      (k <= remaining)%nat
      /\ jobs = (all_jobs
                 ++ concat (map (fun i => Spec.jobs_of (visits i))
                              (seq current_page k)))%list
      /\ forall i : nat,
           (current_page <= i < current_page + k)%nat ->
           Spec.jobs_of (visits i) <> [].
Proof.
  induction remaining as [|remaining IH];
    intros current_page all_jobs stdin rest jobs; cbn [Main.page_loop].
  - intros H. injection H as <- <-. exists 0%nat. cbn.
    split; [lia|]. split; [now rewrite app_nil_r | intros i Hi; lia].
  - pose proof (eq_refl (Spec.jobs_of (visits current_page))) as Hj.
    unfold Spec.jobs_of at 2 in Hj.
    destruct (extract_job_listings (Main.listing (visits current_page)))
      as [found|e]; [|discriminate].
    destruct found as [|j found]; cbn [truthy negb].
    + intros H. injection H as <- <-. exists 0%nat. cbn.
      split; [lia|]. split; [now rewrite app_nil_r | intros i Hi; lia].
    + assert (Hone : forall i : nat,
                 (current_page <= i < current_page + 1)%nat ->
                 Spec.jobs_of (visits i) <> []).
      { intros i Hi. replace i with current_page by lia. now rewrite Hj. }
      destruct (has_next_page (Main.paging (visits current_page)));
        cbn [negb].
      * destruct (go_to_next_page (Main.moving (visits current_page)) stdin)
          as [[[|]|e|] rest'] eqn:G; intros H; try discriminate H.
        -- destruct (IH _ _ _ _ _ H) as (k & Hk & -> & Hne).
           exists (S k). split; [lia|]. cbn [seq map concat].
           rewrite Hj, <- app_assoc. split; [reflexivity|].
           intros i Hi. destruct (decide (i = current_page)) as [->|Hd].
           ++ now rewrite Hj.
           ++ apply Hne. lia.
        -- injection H as <- <-. exists 1%nat. cbn [seq map concat].
           rewrite Hj, app_nil_r. split; [lia|]. split; [reflexivity | exact Hone].
      * intros H. injection H as <- <-. exists 1%nat. cbn [seq map concat].
        rewrite Hj, app_nil_r. split; [lia|]. split; [reflexivity | exact Hone].
Qed.

(** X11: the loop of [main] visits at most [max_pages] pages.  When it
    ends, the jobs it collected are the lists [extract_job_listings]
    returned on the first [k] pages, in the order of the pages, for some
    [k] that is at most [max_pages]; none of these lists is empty. *)
Theorem scrape_pages_collects
    (max_pages : Z) (visits : nat -> Main.visit)
    (stdin rest : list input_event) (jobs : list (gmap string string)) :
  Main.scrape_pages max_pages visits stdin = (Returns jobs, rest) ->
  exists k : nat,
    (Z.of_nat k <= Z.max 0 max_pages)%Z
    /\ jobs = concat (map (fun i => Spec.jobs_of (visits i)) (seq 0 k))
    /\ forall i : nat, (i < k)%nat -> Spec.jobs_of (visits i) <> [].
Proof.
  unfold Main.scrape_pages. intros H.
  destruct (page_loop_returns _ _ _ _ _ _ _ H) as (k & Hk & -> & Hne).
  exists k. split; [lia|]. split; [reflexivity|].
  intros i Hi. apply Hne. lia.
Qed.

Lemma scrape_pages_collects_witness :
  Main.scrape_pages 2 Examples.same_pages [Line "quit"]
    = (Returns [Examples.bare_job; Examples.plain_job;
                Examples.bare_job; Examples.plain_job], [Line "quit"])
  /\ exists k : nat,
       (Z.of_nat k <= Z.max 0 2)%Z
       /\ [Examples.bare_job; Examples.plain_job;
           Examples.bare_job; Examples.plain_job]
          = concat (map (fun i => Spec.jobs_of (Examples.same_pages i)) (seq 0 k))
       /\ forall i : nat,
            (i < k)%nat -> Spec.jobs_of (Examples.same_pages i) <> [].
Proof.
  assert (H : Main.scrape_pages 2 Examples.same_pages [Line "quit"]
              = (Returns [Examples.bare_job; Examples.plain_job;
                          Examples.bare_job; Examples.plain_job], [Line "quit"]))
    by (vm_compute; reflexivity).
  split; [exact H|]. exact (scrape_pages_collects _ _ _ _ _ H).
Defined.




(** X13: the command line against the configuration.  Each of
    [--job-title], [--location], [--radius] and [--max-pages] replaces
    the configured value when it is given with a text that is not empty
    or a number that is not 0; when it is not given, or given as the
    empty text or as 0, the configured value stays.  [--output-csv] and
    [--output-json] can switch an output on and never off;
    [results_per_page], [headless] and [timeout] are never changed,
    whatever [--headless] says; and overriding twice is overriding
    once. *)
Theorem override_edge_cases (a : Main.args) (config : Config.t) :
  let merged := Main.override a config in
  (forall t : string,
      Main.job_title a = Some t -> t <> "" -> Config.job_title merged = t)
  /\ (forall t : string,
        Main.location a = Some t -> t <> "" -> Config.location merged = t)
  /\ (forall n : Z,
        Main.radius a = Some n -> n <> 0%Z -> Config.radius merged = n)
  /\ (forall n : Z,
        Main.max_pages a = Some n -> n <> 0%Z -> Config.max_pages merged = n)
  /\ (Main.job_title a = None \/ Main.job_title a = Some "" ->
      Config.job_title merged = Config.job_title config)
  /\ (Main.location a = None \/ Main.location a = Some "" ->
      Config.location merged = Config.location config)
  /\ (Main.radius a = None \/ Main.radius a = Some 0%Z ->
      Config.radius merged = Config.radius config)
  /\ (Main.max_pages a = None \/ Main.max_pages a = Some 0%Z ->
      Config.max_pages merged = Config.max_pages config)
  /\ Config.output_csv merged = Main.output_csv a || Config.output_csv config
  /\ Config.output_json merged = Main.output_json a || Config.output_json config
  /\ Config.results_per_page merged = Config.results_per_page config
  /\ Config.headless merged = Config.headless config
  /\ Config.timeout merged = Config.timeout config
  /\ Main.override a merged = merged.
Proof.
  destruct a as [t l r m csv json h], config as [ct cl cr cp cm ccsv cjson ch cto].
  cbn.
  assert (Ht : forall (o : option string) (c x : string),
             o = Some x -> x <> "" -> Main.given_text o c = x).
  { intros o c x -> Hx. cbn. destruct x; [contradiction | reflexivity]. }
  assert (Hn : forall (o : option Z) (c n : Z),
             o = Some n -> n <> 0%Z -> Main.given_number o c = n).
  { intros o c n -> Hx. cbn. destruct (Z.eqb_spec n 0); [contradiction | reflexivity]. }
  split; [intros x; apply Ht|]. split; [intros x; apply Ht|].
  split; [intros n; apply Hn|]. split; [intros n; apply Hn|].
  split; [intros [->| ->]; reflexivity|]. split; [intros [->| ->]; reflexivity|].
  split; [intros [->| ->]; reflexivity|]. split; [intros [->| ->]; reflexivity|].
  split; [now destruct csv|]. split; [now destruct json|].
  split; [reflexivity|]. split; [reflexivity|]. split; [reflexivity|].
  unfold Main.override. cbn. f_equal.
  - destruct t as [[|x t]|]; reflexivity.
  - destruct l as [[|x l]|]; reflexivity.
  - destruct r as [n|]; cbn; [|reflexivity].
    destruct (Z.eqb_spec n 0); cbn; [reflexivity|].
    destruct (Z.eqb_spec n 0); [contradiction | reflexivity].
  - destruct m as [n|]; cbn; [|reflexivity].
    destruct (Z.eqb_spec n 0); cbn; [reflexivity|].
    destruct (Z.eqb_spec n 0); [contradiction | reflexivity].
  - now destruct csv.
  - now destruct json.
Qed.

(** ** Saving data that is not empty *)

Lemma plain_name_relative (name : string) :
  Spec.plain_name name -> path_join "output" name = "output/" +:+ name.
Proof.
  intros (_ & _ & Hc). unfold path_join.
  destruct name as [|a s]; [reflexivity|].
  change (Str.contains "/" (String a s))
    with (Str.prefix_of "/" (String a s) || Str.contains "/" s) in Hc.
  apply orb_false_iff in Hc as [-> _]. reflexivity.
Qed.

Lemma save_with_writes
    (timestamp : string) (open_error : gmap string node -> string -> option exn)
    (content extension : string) (filename : option string) (w : world) :
  let name :=
    match filename with
    | Some f => f
    | None => "indeed_jobs_" +:+ timestamp +:+ extension
    end in
  Spec.plain_name name ->
  files w !! "output" = Some Directory ->
  open_error (files w) ("output/" +:+ name) = None ->
  save_with timestamp open_error content extension filename w
  = (Ret (Some ("output/" +:+ name)),
     World (<["output/" +:+ name := File content]> (files w))
       (stdout w ++ ["Data saved to " +:+ ("output/" +:+ name)])).
Proof.
  intros name Hname Hdir Hopen. unfold save_with, mkdir_exist_ok.
  rewrite Hdir. fold name. rewrite (plain_name_relative _ Hname).
  unfold write_file. rewrite Hopen. reflexivity.
Qed.

Lemma save_with_raises
    (timestamp : string) (open_error : gmap string node -> string -> option exn)
    (content extension : string) (filename : option string) (w : world)
    (e : exn) :
  files w !! "output" <> None ->
  fst (save_with timestamp open_error content extension filename w) = Raise e ->
  snd (save_with timestamp open_error content extension filename w) = w.
Proof.
  intros Hdir. unfold save_with, mkdir_exist_ok.
  destruct (files w !! "output") as [[|c]|]; [| reflexivity | contradiction].
  unfold write_file.
  destruct (open_error (files w) _); [reflexivity | discriminate].
Qed.

(** X14: saving a list that is not empty, when [output] is a directory
    already, the file name is a plain name (the default name with the
    time stamp when none is given) and the file can be opened: the
    function returns the path [output/<name>], that path holds the text
    made of the data, one line is printed, and nothing else in the file
    system has changed. *)
Theorem save_writes_the_file
    (csv_text json_text : list (gmap string string) -> string)
    (timestamp : string) (open_error : gmap string node -> string -> option exn)
    (data : list (gmap string string)) (filename : option string) (w : world) :
  data <> [] ->
  files w !! "output" = Some Directory ->
  let saved (extension content : string) :=
    let name :=
      match filename with
      | Some f => f
      | None => "indeed_jobs_" +:+ timestamp +:+ extension
      end in
    (Ret (Some ("output/" +:+ name)),
     World (<["output/" +:+ name := File content]> (files w))
       (stdout w ++ ["Data saved to " +:+ ("output/" +:+ name)])) in
  let name (extension : string) :=
    match filename with
    | Some f => f
    | None => "indeed_jobs_" +:+ timestamp +:+ extension
    end in
  (Spec.plain_name (name ".csv") ->
   open_error (files w) ("output/" +:+ name ".csv") = None ->
   save_to_csv csv_text timestamp open_error data filename w
   = saved ".csv" (csv_text data))
  /\ (Spec.plain_name (name ".json") ->
      open_error (files w) ("output/" +:+ name ".json") = None ->
      save_to_json json_text timestamp open_error data filename w
      = saved ".json" (json_text data)).
Proof.
  intros Hdata Hdir saved name. unfold save_to_csv, save_to_json.
  destruct data as [|j data]; [contradiction|]. cbn [truthy negb].
  split; intros Hname Hopen; now apply save_with_writes.
Qed.

Lemma save_writes_the_file_witness :
  save_to_csv (fun _ => "title,company") "20250101_120000"
    (fun _ _ => None) [Examples.bare_job] None Examples.ready_world
  = (Ret (Some "output/indeed_jobs_20250101_120000.csv"),
     World (<["output/indeed_jobs_20250101_120000.csv" := File "title,company"]>
              (<["output" := Directory]> ∅))
       ["Data saved to output/indeed_jobs_20250101_120000.csv"])
  /\ save_to_json (fun _ => "[{}]") "20250101_120000"
       (fun _ _ => None) [Examples.bare_job] (Some "jobs.json")
       Examples.ready_world
     = (Ret (Some "output/jobs.json"),
        World (<["output/jobs.json" := File "[{}]"]> (<["output" := Directory]> ∅))
          ["Data saved to output/jobs.json"]).
Proof.
  assert (Hd : [Examples.bare_job] <> []) by discriminate.
  assert (Ho : files Examples.ready_world !! "output" = Some Directory)
    by reflexivity.
  split.
  - apply (save_writes_the_file (fun _ => "title,company") (fun _ => "[{}]")
             "20250101_120000" (fun _ _ => None) _ None _ Hd Ho);
      [repeat split; discriminate | reflexivity].
  - apply (save_writes_the_file (fun _ => "title,company") (fun _ => "[{}]")
             "20250101_120000" (fun _ _ => None) _ (Some "jobs.json") _ Hd Ho);
      [repeat split; discriminate | reflexivity].
Defined.

(** X15: a save that raises where [output] exists has changed nothing:
    no file is written and no line is printed.  When [output] is a
    regular file the exception is [FileExistsError]. *)
Theorem save_that_raises_writes_nothing
    (csv_text json_text : list (gmap string string) -> string)
    (timestamp : string) (open_error : gmap string node -> string -> option exn)
    (data : list (gmap string string)) (filename : option string) (w : world) :
  files w !! "output" <> None ->
  (forall e : exn,
      fst (save_to_csv csv_text timestamp open_error data filename w) = Raise e ->
      snd (save_to_csv csv_text timestamp open_error data filename w) = w)
  /\ (forall e : exn,
      fst (save_to_json json_text timestamp open_error data filename w) = Raise e ->
      snd (save_to_json json_text timestamp open_error data filename w) = w)
  /\ (forall content : string,
        files w !! "output" = Some (File content) -> data <> [] ->
        save_to_csv csv_text timestamp open_error data filename w
        = (Raise FileExistsError, w)
        /\ save_to_json json_text timestamp open_error data filename w
           = (Raise FileExistsError, w)).
Proof.
  intros Hdir. unfold save_to_csv, save_to_json.
  split; [|split].
  - intros e. destruct (negb (truthy data)); [discriminate|].
    now apply save_with_raises.
  - intros e. destruct (negb (truthy data)); [discriminate|].
    now apply save_with_raises.
  - intros content Hf Hd. destruct data as [|j data]; [contradiction|].
    cbn [truthy negb]. unfold save_with, mkdir_exist_ok. rewrite Hf.
    split; reflexivity.
Qed.

Lemma save_that_raises_writes_nothing_witness :
  files (World (<["output" := File "notes"]> ∅) []) !! "output" <> None
  /\ save_to_csv (fun _ => "title,company") "20250101_120000" (fun _ _ => None)
       [Examples.bare_job] None (World (<["output" := File "notes"]> ∅) [])
     = (Raise FileExistsError, World (<["output" := File "notes"]> ∅) []).
Proof.
  assert (H : files (World (<["output" := File "notes"]> ∅) []) !! "output"
              <> None) by discriminate.
  split; [exact H|].
  destruct (save_that_raises_writes_nothing (fun _ => "title,company")
              (fun _ => "[{}]") "20250101_120000" (fun _ _ => None)
              [Examples.bare_job] None _ H) as (_ & _ & Hfile).
  apply (Hfile "notes"); [reflexivity | discriminate].
Defined.




(** ** More on [_extract_job_data] and [extract_job_listings] *)

Lemma text_field_stripped (c : card) (selectors q : list string) (d v : string) :
  Spec.text_field c selectors q d v -> Str.strip d = d -> Str.strip v = v.
Proof.
  intros [(e & t & _ & _ & ->)|[_ ->]] Hd; [apply strip_idempotent | exact Hd].
Qed.

Lemma job_id_piece_no_amp (url : string) :
  "&"%char ∉ Str.chars (Spec.job_id_piece url).
Proof.
  unfold Spec.job_id_piece. destruct (Spec.after_first "jk=" url) as [tail|].
  - apply before_first_stops.
  - apply (bool_decide_unpack _). vm_compute. exact I.
Qed.

Lemma link_field_no_amp (c : card) (selectors q : list string) (u id : string) :
  Spec.link_field c selectors q u id -> "&"%char ∉ Str.chars id.
Proof.
  intros [(e & _ & _ & ->)|(_ & _ & ->)].
  - apply job_id_piece_no_amp.
  - apply (bool_decide_unpack _). vm_compute. exact I.
Qed.

(** The shape of a dictionary that is returned. *)
Lemma extracted_shape (c : card) (j : gmap string string) :
  fst (_extract_job_data c) = Ret (Some j) ->
  dom j = Spec.job_keys
  /\ (forall key : string,
        key ∈ Spec.text_keys ->
        exists v : string, j !! key = Some v /\ Str.strip v = v)
  /\ (exists id : string, j !! "job_id" = Some id /\ "&"%char ∉ Str.chars id).
Proof.
  intros H.
  destruct (_extract_job_data c) as [r log] eqn:E. cbn in H. subst r.
  apply extract_job_data_some in E as (st' & E & _).
  apply extract_body_ret in E
    as (q1 & q2 & q3 & q4 & q5 & q6 & q7 & title & company & location & salary
        & url & job_id & snippet & date_posted
        & F1 & F2 & F3 & F4 & F5 & F6 & F7 & -> & _).
  split; [|split].
  - unfold Spec.job_keys. rewrite !dom_insert_L, dom_empty_L. set_solver.
  - intros key Hkey. unfold Spec.text_keys in Hkey.
    repeat (apply elem_of_cons in Hkey as [->|Hkey]); [ .. | inversion Hkey].
    + exists title. split; [now simplify_map_eq|].
      exact (text_field_stripped _ _ _ _ _ F1 eq_refl).
    + exists company. split; [now simplify_map_eq|].
      exact (text_field_stripped _ _ _ _ _ F2 eq_refl).
    + exists location. split; [now simplify_map_eq|].
      exact (text_field_stripped _ _ _ _ _ F3 eq_refl).
    + exists salary. split; [now simplify_map_eq|].
      exact (text_field_stripped _ _ _ _ _ F4 eq_refl).
    + exists snippet. split; [now simplify_map_eq|].
      exact (text_field_stripped _ _ _ _ _ F6 eq_refl).
    + exists date_posted. split; [now simplify_map_eq|].
      exact (text_field_stripped _ _ _ _ _ F7 eq_refl).
  - exists job_id. split; [now simplify_map_eq|].
    exact (link_field_no_amp _ _ _ _ _ F5).
Qed.

(** X17: in a dictionary that [_extract_job_data] returns, the six
    values taken from a text of the card (title, company, location,
    salary, snippet, date_posted) have no white space at either end:
    stripping one of them again changes nothing.  This holds for the
    default texts as well. *)
Theorem extract_job_data_texts_stripped
    (c : card) (j : gmap string string) (key : string) :
  fst (_extract_job_data c) = Ret (Some j) ->
  key ∈ Spec.text_keys ->
  exists v : string, j !! key = Some v /\ Str.strip v = v.
Proof.
  intros H Hkey. destruct (extracted_shape c j H) as (_ & Ht & _).
  exact (Ht key Hkey).
Qed.

Lemma extract_job_data_texts_stripped_witness :
  fst (_extract_job_data Examples.plain_card) = Ret (Some Examples.plain_job)
  /\ exists v : string,
       Examples.plain_job !! "title" = Some v /\ Str.strip v = v.
Proof.
  assert (E : fst (_extract_job_data Examples.plain_card)
              = Ret (Some Examples.plain_job)) by (vm_compute; reflexivity).
  split; [exact E|].
  apply (extract_job_data_texts_stripped _ _ "title" E).
  apply (bool_decide_unpack _). vm_compute. exact I.
Defined.

(** X18: the [job_id] of a dictionary that is returned never holds an
    ['&']: it is cut at the first ['&'] after ['jk='], and the default
    ["unknown"] holds none. *)
Theorem extract_job_data_job_id_no_ampersand
    (c : card) (j : gmap string string) :
  fst (_extract_job_data c) = Ret (Some j) ->
  exists id : string, j !! "job_id" = Some id /\ "&"%char ∉ Str.chars id.
Proof.
  intros H. destruct (extracted_shape c j H) as (_ & _ & Hid). exact Hid.
Qed.

Lemma extract_job_data_job_id_no_ampersand_witness :
  fst (_extract_job_data Examples.twice_jk_card)
  = Ret (Some Examples.twice_jk_job)
  /\ exists id : string,
       Examples.twice_jk_job !! "job_id" = Some id /\ "&"%char ∉ Str.chars id.
Proof.
  assert (E : fst (_extract_job_data Examples.twice_jk_card)
              = Ret (Some Examples.twice_jk_job)) by (vm_compute; reflexivity).
  split; [exact E|].
  exact (extract_job_data_job_id_no_ampersand _ _ E).
Defined.

Lemma extract_job_listings_omap (d : driver) (jobs : list (gmap string string)) :
  extract_job_listings d = Ret jobs ->
  exists cards : list card, jobs = omap Spec.extracted cards.
Proof.
  unfold extract_job_listings, try_except.
  destruct (find_job_cards d card_selectors None) as [[|c cards]|];
    cbn [truthy]; intros H; injection H as <-.
  - now exists [].
  - exists (c :: cards). apply (collect_jobs_omap (c :: cards) []).
  - now exists [].
Qed.

(** X19: every dictionary in the list [extract_job_listings] returns has
    exactly the eight keys of a job, its text values are stripped and
    its [job_id] holds no ['&']: what holds of one extracted card holds
    of each element of the list. *)
Theorem extract_job_listings_well_formed
    (d : driver) (jobs : list (gmap string string)) :
  extract_job_listings d = Ret jobs ->
  Forall (fun j : gmap string string =>
            dom j = Spec.job_keys
            /\ (forall key : string,
                  key ∈ Spec.text_keys ->
                  exists v : string, j !! key = Some v /\ Str.strip v = v)
            /\ (exists id : string,
                   j !! "job_id" = Some id /\ "&"%char ∉ Str.chars id))
    jobs.
Proof.
  intros H. destruct (extract_job_listings_omap _ _ H) as [cards ->].
  apply Forall_forall. intros j Hj.
  apply list_elem_of_omap in Hj as (c & _ & Hc).
  apply (extracted_shape c). unfold Spec.extracted in Hc.
  destruct (fst (_extract_job_data c)) as [[j'|]|e]; try discriminate Hc.
  now injection Hc as ->.
Qed.

Lemma extract_job_listings_well_formed_witness :
  extract_job_listings Examples.three_cards
  = Ret [Examples.bare_job; Examples.plain_job]
  /\ Forall (fun j : gmap string string => dom j = Spec.job_keys)
       [Examples.bare_job; Examples.plain_job].
Proof.
  assert (E : extract_job_listings Examples.three_cards
              = Ret [Examples.bare_job; Examples.plain_job])
    by (vm_compute; reflexivity).
  split; [exact E|].
  eapply Forall_impl; [exact (extract_job_listings_well_formed _ _ E)|].
  intros j [Hj _]. exact Hj.
Defined.

(** ** When [_extract_job_data] returns a dictionary *)

Lemma xbind_progress {A B} (m : X A) (k : A -> X B) :
  (forall st : xstate, exists (a : A) (st' : xstate), m st = (Ret a, st')) ->
  (forall (a : A) (st : xstate),
      exists (b : B) (st' : xstate), k a st = (Ret b, st')) ->
  forall st : xstate,
    exists (b : B) (st' : xstate), xbind m k st = (Ret b, st').
Proof.
  intros Hm Hk st. unfold xbind. destruct (Hm st) as (a & st1 & ->).
  apply Hk.
Qed.

Lemma set_if_missing_progress (key value : string) (st : xstate) :
  exists (u : unit) (st' : xstate), set_if_missing key value st = (Ret u, st').
Proof.
  unfold set_if_missing, set_item. destruct (job st !! key); eauto.
Qed.

Lemma text_loop_progress (c : card) (key : string) (selectors : list string) :
  Spec.readable c ->
  forall st : xstate,
    exists (u : unit) (st' : xstate),
      text_loop c key selectors st = (Ret u, st').
Proof.
  intros Hr. induction selectors as [|s rest IH]; intros st;
    cbn [text_loop]; [unfold xret; eauto|].
  unfold xbind, card_find, xlift, set_item. specialize (Hr s).
  destruct (find_element c s) as [e| |]; cbn.
  - destruct Hr as [[t ->] _]. cbn. eauto.
  - apply IH.
  - contradiction.
Qed.

Lemma url_loop_progress (c : card) (selectors : list string) :
  Spec.readable c ->
  forall st : xstate,
    exists (u : unit) (st' : xstate), url_loop c selectors st = (Ret u, st').
Proof.
  intros Hr. induction selectors as [|s rest IH]; intros st;
    cbn [url_loop]; [unfold xret; eauto|].
  unfold xbind, card_find, xlift, set_item. specialize (Hr s).
  destruct (find_element c s) as [e| |]; cbn.
  - destruct Hr as [_ [u ->]]. cbn. rewrite job_id_of_piece. eauto.
  - apply IH.
  - contradiction.
Qed.

Lemma text_loop_fails (c : card) (key : string) (selectors : list string) :
  forall (st : xstate) (i : nat) (s : string),
    selectors !! i = Some s ->
    (find_element c s = DriverError
     \/ exists e : element, find_element c s = Found e /\ text e = Stale) ->
    (forall (k : nat) (s' : string),
        (k < i)%nat -> selectors !! k = Some s' ->
        find_element c s' = NoSuchElement) ->
    exists (e : exn) (st' : xstate),
      text_loop c key selectors st = (Raise e, st').
Proof.
  induction selectors as [|s0 rest IH]; intros st i s Hi Hbad Hbefore;
    [discriminate Hi|].
  cbn [text_loop]. unfold xbind, card_find, xlift, set_item.
  destruct i as [|i].
  - injection Hi as ->. destruct Hbad as [->|(e & -> & He)]; cbn.
    + eauto.
    + rewrite He. cbn. eauto.
  - rewrite (Hbefore 0%nat s0 (Nat.lt_0_succ i) eq_refl). cbn.
    apply (IH _ i s Hi Hbad). intros k s' Hk Hl.
    apply (Hbefore (S k) s'); [lia | exact Hl].
Qed.

(** X20: [_extract_job_data] returns a dictionary, and not [None], for
    every card that can be read: no lookup on it fails in the driver
    (each finds an element or raises [NoSuchElementException]) and every
    element that is found has a text and an [href]. *)
Theorem extract_job_data_readable_card (c : card) :
  Spec.readable c ->
  exists j : gmap string string, fst (_extract_job_data c) = Ret (Some j).
Proof.
  intros Hr.
  assert (H : forall st : xstate,
             exists (j : gmap string string) (st' : xstate),
               extract_job_data_body c st = (Ret j, st')).
  { unfold extract_job_data_body.
    repeat (apply xbind_progress;
            [first [ apply (text_loop_progress _ _ _ Hr)
                   | apply (url_loop_progress _ _ Hr)
                   | intros st; apply set_if_missing_progress
                   | idtac ]
            | intros _ ]).
    - intros st. destruct (job st !! "url"); [eauto|].
      unfold xbind, set_item. eauto.
    - intros st. eauto. }
  unfold _extract_job_data.
  destruct (H (XState ∅ [])) as (j & st' & ->). now exists j.
Qed.

Lemma extract_job_data_readable_card_witness :
  Spec.readable Examples.twice_jk_card
  /\ exists j : gmap string string,
       fst (_extract_job_data Examples.twice_jk_card) = Ret (Some j).
Proof.
  assert (Hr : Spec.readable Examples.twice_jk_card).
  { intros s. unfold Examples.twice_jk_card. cbn [find_element].
    destruct (String.eqb s "h2.jobTitle a"); [|exact I].
    split; eexists; reflexivity. }
  split; [exact Hr|]. exact (extract_job_data_readable_card _ Hr).
Defined.

(** X21: one failing title lookup loses the whole card: when the first
    title selector that does not raise [NoSuchElementException] fails
    in the driver, or finds an element whose text cannot be read any
    more, [_extract_job_data] returns [None], whatever the other
    selectors would find. *)
Theorem extract_job_data_none_on_failure (c : card) (i : nat) (s : string) :
  title_selectors !! i = Some s ->
  (find_element c s = DriverError
   \/ exists e : element, find_element c s = Found e /\ text e = Stale) ->
  (forall (k : nat) (s' : string),
      (k < i)%nat -> title_selectors !! k = Some s' ->
      find_element c s' = NoSuchElement) ->
  fst (_extract_job_data c) = Ret None.
Proof.
  intros Hi Hbad Hbefore.
  unfold _extract_job_data, extract_job_data_body.
  unfold xbind at 1.
  destruct (text_loop_fails c "title" title_selectors (XState ∅ []) i s
              Hi Hbad Hbefore) as (e & st' & ->).
  reflexivity.
Qed.

Lemma extract_job_data_none_on_failure_witness :
  title_selectors !! 0%nat = Some "h2.jobTitle span"
  /\ fst (_extract_job_data Examples.stale_card) = Ret None.
Proof.
  split; [reflexivity|].
  apply (extract_job_data_none_on_failure Examples.stale_card 0 "h2.jobTitle span");
    [reflexivity | right; eexists; split; reflexivity | intros k s' Hk; lia].
Defined.

(** ** More on [manual_navigate] *)




Lemma prompt_loop_command (d : driver) (before : list input_event) :
  forall (s : string) (later : list input_event),
    Forall (fun ev : input_event =>
              exists t : string, ev = Line t /\ Spec.is_command t = false)
      before ->
    Spec.is_command s = true ->
    prompt_loop d (before ++ Line s :: later)
    = (Returns (negb (String.eqb (command_of s) "quit")), later).
Proof.
  induction before as [|ev before IH]; intros s later Hb Hs; cbn [app prompt_loop].
  - unfold Spec.is_command in Hs.
    destruct (String.eqb (command_of s) "done") eqn:Hd.
    { apply String.eqb_eq in Hd. now rewrite Hd. }
    destruct (String.eqb (command_of s) "save") eqn:Hv.
    { apply String.eqb_eq in Hv. now rewrite Hv. }
    destruct (String.eqb (command_of s) "quit"); [reflexivity|].
    discriminate Hs.
  - apply Forall_cons in Hb as [(t & -> & Ht) Hb].
    unfold Spec.is_command in Ht.
    apply orb_false_iff in Ht as [Ht ->].
    apply orb_false_iff in Ht as [-> ->].
    now apply IH.
Qed.

(** X23: [manual_navigate] comes to an end once the operator enters a
    command.  When the page loads and the input holds a line that is
    ['done'], ['save'] or ['quit'] after trimming and lowercasing, with
    only other lines before it, the call returns: [True] on automatic
    success, and otherwise [True] for ['done'] and ['save'] and [False]
    for ['quit'].  Lines that are not a command are asked again. *)
Theorem manual_navigate_returns
    (d : driver) (url : string) (before later : list input_event) (s : string) :
  get d url = Ret tt ->
  Forall (fun ev : input_event =>
            exists t : string, ev = Line t /\ Spec.is_command t = false)
    before ->
  Spec.is_command s = true ->
  manual_navigate d url (before ++ Line s :: later)
  = Returns (automatic d || negb (String.eqb (command_of s) "quit")).
Proof.
  intros Hg Hb Hs. unfold manual_navigate, automatic. rewrite Hg.
  rewrite (prompt_loop_command d before s later Hb Hs).
  destruct (challenge_found d cloudflare_elements) as [challenge|e];
    [|reflexivity].
  destruct (job_cards_found d card_selectors && negb challenge
            && negb (cookie_dialog_found d)); reflexivity.
Qed.

Lemma manual_navigate_returns_witness :
  manual_navigate Examples.broken_page "https://de.indeed.com/jobs?q=x"
    ([Line "yes"; Line ""] ++ Line " Save " :: [Line "quit"])
  = Returns true.
Proof.
  apply (manual_navigate_returns Examples.broken_page
           "https://de.indeed.com/jobs?q=x" [Line "yes"; Line ""]
           [Line "quit"] " Save ");
    [reflexivity | | reflexivity].
  repeat constructor; eexists; split; reflexivity.
Defined.

(** ** More on [build_indeed_url] *)

Lemma replace_idempotent (old new : ascii) (s : string) :
  new <> old ->
  Str.replace old new (Str.replace old new s) = Str.replace old new s.
Proof.
  intros Hne. induction s as [|c s IH]; [reflexivity|].
  cbn [Str.replace]. rewrite IH. f_equal.
  destruct (Ascii.eqb_spec c old) as [E|Hc].
  - destruct (Ascii.eqb_spec new old) as [E'|_]; [contradiction | reflexivity].
  - destruct (Ascii.eqb_spec c old) as [E'|_]; [contradiction | reflexivity].
Qed.

(** X24: the encoding of spaces is idempotent: a job title or a location
    in which the spaces are already written as ['+'] gives the same URL
    as the text with spaces.  So the URL does not tell ["a b"] from
    ["a+b"]. *)
Theorem build_indeed_url_encoded_input
    (job_title location : string) (radius start limit : Z) :
  build_indeed_url (Str.replace " " "+" job_title) (Str.replace " " "+" location)
    radius start limit
  = build_indeed_url job_title location radius start limit
  /\ build_indeed_url "a b" "Berlin" 25 default_start default_limit
     = build_indeed_url "a+b" "Berlin" 25 default_start default_limit.
Proof.
  split; [|reflexivity].
  unfold build_indeed_url. now rewrite !replace_idempotent by discriminate.
Qed.

(** ** The job id and the names of the output files *)

(** X25: the expression that computes the job id never raises: whenever
    ['jk='] occurs in the link, [split('jk=')] has a second piece and
    [split('&')] a first one, so the [IndexError] the handler of the
    loop names cannot come from it; without ['jk='] the id is
    ["unknown"]. *)
Theorem job_id_of_never_raises (url : string) :
  (exists id : string, job_id_of url = Ret id)
  /\ (Str.contains "jk=" url = true ->
      exists tail : string,
        Str.split "jk=" url !! 1%nat = Some tail
        /\ job_id_of url = Ret (Spec.before_first "&" tail))
  /\ (Str.contains "jk=" url = false -> job_id_of url = Ret "unknown").
Proof.
  split; [|split].
  - rewrite job_id_of_piece. eauto.
  - intros Hc. unfold job_id_of. rewrite Hc.
    rewrite split_second by discriminate.
    apply contains_after_first in Hc as [rest Hr]. rewrite Hr. cbn [fmap option_fmap option_map].
    exists (Spec.before_first "jk=" rest). split; [reflexivity|].
    now rewrite split_head by discriminate.
  - intros Hc. unfold job_id_of. now rewrite Hc.
Qed.

